(** * Email verifier (worker.js): a shallow embedding and its properties

    The development follows the source file top-down:

    - JavaScript strings are sequences of code units; the model keeps the
      code units below 256 (the Latin-1 range) and writes them as [ascii].
    - Regular-expression literals are kept as syntax ([RegExp]) and run by
      [test], a derivative-based matcher, so that each literal of the source
      is transcribed rather than re-interpreted.
    - [async] code runs in a small monad: a log of the requests issued so
      far, and a completion that is a value, an exception or a promise that
      never settles.
    - The DNS-over-HTTPS service is a collaborator: a function from the URL
      fetched to what [fetch] and [response.json()] do with it. *)

From Stdlib Require Import List Ascii String Bool Arith NArith ZArith Lia.
Import ListNotations.

Open Scope list_scope.
Open Scope bool_scope.

(* ================================================================== *)
(** ** Strings *)

(** A JavaScript string, as the list of its code units. *)
Definition jsstring := list ascii.

(** String literals of the source are written [str "..."]. *)
Definition str (s : string) : jsstring := list_ascii_of_string s.

Definition code (c : ascii) : N := N_of_ascii c.

Definition jsstring_eqb (s t : jsstring) : bool :=
  if list_eq_dec ascii_dec s t then true else false.

(** [String.prototype.toLowerCase] on one code unit below 256: the ASCII
    capitals and the Latin-1 capitals U+00C0..U+00DE (U+00D7, the
    multiplication sign, has no case) move up by 32. *)
Definition lower_unit (c : ascii) : ascii :=
  let n := code c in
  if (65 <=? n)%N && (n <=? 90)%N then ascii_of_N (n + 32)
  else if (192 <=? n)%N && (n <=? 222)%N && negb (n =? 215)%N
       then ascii_of_N (n + 32)
  else c.

Definition toLowerCase (s : jsstring) : jsstring := map lower_unit s.

(** [String.prototype.split] with a one-unit separator: the pieces between
    the separators; always at least one piece. *)
Fixpoint split (sep : ascii) (s : jsstring) : list jsstring :=
  match s with
  | [] => [[]]
  | c :: s' =>
      if Ascii.eqb c sep then [] :: split sep s'
      else match split sep s' with
           | [] => [[c]]
           | p :: ps => (c :: p) :: ps
           end
  end.

(* ================================================================== *)
(** ** Regular expressions *)

(** The character matchers that occur in the source. *)
Inductive charset :=
| Lit (c : ascii)          (* a pattern character, or an escaped one: \. *)
| Range (lo hi : ascii)    (* [a-z] *)
| NotChar (c : ascii)      (* [^@] *)
| Digit.                   (* \d *)

Inductive regex :=
| Empty                    (* matches nothing; only arises in derivatives *)
| Eps
| Atom (a : charset)
| Seq (r1 r2 : regex)
| Alt (r1 r2 : regex)
| Star (r : regex).

(** Quantifiers, by expansion. *)
Definition Plus (r : regex) : regex := Seq r (Star r).

Fixpoint Repeat (n : nat) (r : regex) : regex :=
  match n with
  | O => Eps
  | S n' => Seq r (Repeat n' r)
  end.

Fixpoint UpTo (n : nat) (r : regex) : regex :=
  match n with
  | O => Eps
  | S n' => Alt Eps (Seq r (UpTo n' r))
  end.

(** [r{lo,}] and [r{lo,hi}]. *)
Definition AtLeast (lo : nat) (r : regex) : regex := Seq (Repeat lo r) (Star r).
Definition Between (lo hi : nat) (r : regex) : regex :=
  Seq (Repeat lo r) (UpTo (hi - lo) r).

(** A run of pattern characters: [temp]. *)
Fixpoint Word (w : jsstring) : regex :=
  match w with
  | [] => Eps
  | c :: w' => Seq (Atom (Lit c)) (Word w')
  end.

(** A regular-expression literal: the pattern between an optional leading
    [^] and an optional trailing [$], and the [i] flag. None of the
    literals of the source has the [g], [y], [m] or [u] flag, so [test]
    keeps no state between calls. *)
Record RegExp := {
  anchor_start : bool;
  pattern : regex;
  anchor_end : bool;
  ignoreCase : bool
}.

(** The abstract operation Canonicalize of the language specification for
    a pattern without the [u] flag: the upper-case form of the code unit
    when it is a single code unit and does not move a non-ASCII unit into
    ASCII. On code units below 256: a-z and U+00E0..U+00FE (but the division
    sign U+00F7) move down by 32, U+00B5 goes to U+039C, U+00FF to U+0178,
    and U+00DF, whose upper-case form has two units, stays. *)
Definition Canonicalize (c : ascii) : N :=
  let n := code c in
  if (97 <=? n)%N && (n <=? 122)%N then (n - 32)%N
  else if (n =? 181)%N then 924%N
  else if (224 <=? n)%N && (n <=? 254)%N && negb (n =? 247)%N then (n - 32)%N
  else if (n =? 255)%N then 376%N
  else n.

Definition in_range (lo hi c : ascii) : bool :=
  (code lo <=? code c)%N && (code c <=? code hi)%N.

(** The code units from [lo] to [hi]. *)
Definition range_units (lo hi : ascii) : list ascii :=
  map (fun k => ascii_of_nat (nat_of_ascii lo + k))
      (seq 0 (S (nat_of_ascii hi) - nat_of_ascii lo)).

Section Matcher.

(** The [i] flag of the literal being run. *)
Variable ic : bool.

Definition unit_eq (a c : ascii) : bool :=
  if ic then (Canonicalize a =? Canonicalize c)%N else Ascii.eqb a c.

(** With the [i] flag a class matches when one of its members has the
    canonical form of the input unit. *)
Definition charset_matches (a : charset) (c : ascii) : bool :=
  match a with
  | Lit x => unit_eq x c
  | Range lo hi =>
      if ic then existsb (fun m => unit_eq m c) (range_units lo hi)
      else in_range lo hi c
  | NotChar x => negb (unit_eq x c)
  | Digit =>
      if ic then existsb (fun m => unit_eq m c) (range_units "0" "9")
      else in_range "0" "9" c
  end.

Fixpoint nullable (r : regex) : bool :=
  match r with
  | Empty => false
  | Eps => true
  | Atom _ => false
  | Seq r1 r2 => nullable r1 && nullable r2
  | Alt r1 r2 => nullable r1 || nullable r2
  | Star _ => true
  end.

Fixpoint deriv (c : ascii) (r : regex) : regex :=
  match r with
  | Empty => Empty
  | Eps => Empty
  | Atom a => if charset_matches a c then Eps else Empty
  | Seq r1 r2 =>
      if nullable r1 then Alt (Seq (deriv c r1) r2) (deriv c r2)
      else Seq (deriv c r1) r2
  | Alt r1 r2 => Alt (deriv c r1) (deriv c r2)
  | Star r1 => Seq (deriv c r1) (Star r1)
  end.

(** The whole of [s] matches [r]. *)
Fixpoint matches (r : regex) (s : jsstring) : bool :=
  match s with
  | [] => nullable r
  | c :: s' => matches (deriv c r) s'
  end.

(** Some prefix of [s] matches [r]. *)
Fixpoint matches_prefix (r : regex) (s : jsstring) : bool :=
  nullable r ||
  match s with
  | [] => false
  | c :: s' => matches_prefix (deriv c r) s'
  end.

(** The language of a pattern, declaratively. *)
Inductive lang : regex -> jsstring -> Prop :=
| lang_eps : lang Eps []
| lang_atom a c : charset_matches a c = true -> lang (Atom a) [c]
| lang_seq r1 r2 s1 s2 :
    lang r1 s1 -> lang r2 s2 -> lang (Seq r1 r2) (s1 ++ s2)
| lang_alt_l r1 r2 s : lang r1 s -> lang (Alt r1 r2) s
| lang_alt_r r1 r2 s : lang r2 s -> lang (Alt r1 r2) s
| lang_star_nil r : lang (Star r) []
| lang_star_cons r s1 s2 :
    lang r s1 -> lang (Star r) s2 -> lang (Star r) (s1 ++ s2).

End Matcher.

(** Trying a matcher at every start position, leftmost first. *)
Fixpoint search (f : jsstring -> bool) (s : jsstring) : bool :=
  f s ||
  match s with
  | [] => false
  | _ :: s' => search f s'
  end.

(** [RegExp.prototype.test]. *)
Definition test (re : RegExp) (s : jsstring) : bool :=
  let at_start :=
    if anchor_end re then matches (ignoreCase re) (pattern re)
    else matches_prefix (ignoreCase re) (pattern re) in
  if anchor_start re then at_start s else search at_start s.

(* ================================================================== *)
(** ** The constants of worker.js *)

Definition not_at : regex := Atom (NotChar "@").

(** [/^[^@]+@[^@]+\.[^@]+$/] *)
Definition EMAIL_REGEX : RegExp := {|
  anchor_start := true;
  pattern :=
    Seq (Plus not_at)
      (Seq (Atom (Lit "@"))
         (Seq (Plus not_at) (Seq (Atom (Lit ".")) (Plus not_at))));
  anchor_end := true;
  ignoreCase := false
|}.

Definition DISPOSABLE_DOMAINS : list jsstring :=
  [ str "mailinator.com";
    str "10minutemail.com";
    str "guerrillamail.com";
    str "tempmail.org";
    str "throwaway.email";
    str "maildrop.cc" ].

Definition ROLE_BASED_PREFIXES : list jsstring :=
  [ str "info";
    str "support";
    str "admin";
    str "sales";
    str "contact";
    str "noreply";
    str "no-reply" ].

(** [Set.prototype.has] on a set of strings. *)
Definition has (set : list jsstring) (s : jsstring) : bool :=
  existsb (jsstring_eqb s) set.

(* ================================================================== *)
(** ** Values, completions and the [async] monad *)

(** The values that [response.json()] can produce, and [undefined], which a
    property access can. Numbers are kept to the integers. *)
#[warnings="-register-all"]
Inductive value :=
| VUndefined
| VNull
| VBool (b : bool)
| VNum (n : Z)
| VStr (s : jsstring)
| VArr (items : list value)
| VObj (fields : list (jsstring * value)).

(** ToBoolean. *)
Definition truthy (v : value) : bool :=
  match v with
  | VUndefined | VNull => false
  | VBool b => b
  | VNum n => negb (n =? 0)%Z
  | VStr s => match s with [] => false | _ => true end
  | VArr _ | VObj _ => true
  end.

(** [a || b] on values whose evaluation has no effect. *)
Definition js_or (a b : value) : value := if truthy a then a else b.

(** [v === 0]. *)
Definition strictly_zero (v : value) : bool :=
  match v with
  | VNum 0 => true
  | _ => false
  end.

Inductive error :=
| TypeError
| SyntaxError
| FetchFailed
| Error (message : jsstring).

(** How an evaluation ends: with a value, with an exception, or, for a
    promise, not at all. *)
Inductive completion (A : Type) :=
| Normal (a : A)
| Thrown (e : error)
| Unsettled.
Arguments Normal {A} a.
Arguments Thrown {A} e.
Arguments Unsettled {A}.

(** The two property names the source reads. Neither is an array index nor
    a property of a built-in prototype other than the [length] of arrays and
    strings. *)
Inductive property := Answer | length_.

Definition property_name (p : property) : jsstring :=
  match p with
  | Answer => str "Answer"
  | length_ => str "length"
  end.

Fixpoint lookup (name : jsstring) (fields : list (jsstring * value)) : value :=
  match fields with
  | [] => VUndefined
  | (k, v) :: fields' => if jsstring_eqb k name then v else lookup name fields'
  end.

(** [v.p]: a TypeError on [undefined] and [null]. *)
Definition get (v : value) (p : property) : completion value :=
  match v with
  | VUndefined | VNull => Thrown TypeError
  | VBool _ | VNum _ => Normal VUndefined
  | VStr s =>
      match p with
      | length_ => Normal (VNum (Z.of_nat (List.length s)))
      | Answer => Normal VUndefined
      end
  | VArr items =>
      match p with
      | length_ => Normal (VNum (Z.of_nat (List.length items)))
      | Answer => Normal VUndefined
      end
  | VObj fields => Normal (lookup (property_name p) fields)
  end.

(** A request, as [fetch] receives it. *)
Record request := {
  url : jsstring;
  headers : list (jsstring * jsstring)
}.

(** What the body of a response does when it is read as JSON. *)
Inductive body :=
| Json (data : value)      (* parses *)
| NotJson                  (* [response.json()] rejects *)
| BodyStalls.              (* the body never arrives *)

(** What the network does with a request. *)
Inductive fetch_outcome :=
| Rejects                  (* [fetch] rejects: the call failed *)
| NeverSettles             (* no answer, ever *)
| Resolves (b : body).

(** An [async] computation: it extends the log of the requests issued and
    ends in a completion. *)
Definition async (A : Type) : Type := list request -> completion A * list request.

Definition ret {A} (a : A) : async A := fun log => (Normal a, log).

Definition throw {A} (e : error) : async A := fun log => (Thrown e, log).

Definition bind {A B} (m : async A) (k : A -> async B) : async B :=
  fun log =>
    match m log with
    | (Normal a, log') => k a log'
    | (Thrown e, log') => (Thrown e, log')
    | (Unsettled, log') => (Unsettled, log')
    end.

(** [try { m } catch (error) { handler }]. *)
Definition try_catch {A} (m : async A) (handler : error -> async A) : async A :=
  fun log =>
    match m log with
    | (Thrown e, log') => handler e log'
    | settled => settled
    end.

Definition lift {A} (c : completion A) : async A := fun log => (c, log).

Declare Scope async_scope.
Delimit Scope async_scope with async.
Notation "x <- m ;; k" := (bind m (fun x => k))
  (at level 61, m at next level, right associativity) : async_scope.
Open Scope async_scope.

(* ================================================================== *)
(** ** The functions of worker.js *)

Inductive status := valid | invalid | risky.

Inductive reason :=
| bad_syntax
| disposable_domain
| role_based
| no_mx
| suspicious_domain
| dns_timeout
| dns_verified.

Record verdict := { verdict_status : status; verdict_reason : reason }.

Notation "'{{' s ',' r '}}'" := {| verdict_status := s; verdict_reason := r |}.

Record domain_info := { suspicious : bool }.

(** The three literals of [suspiciousPatterns], in the order of the array:
    [/\d{5,}/], [/temp|test|fake|spam/i] and [/^[a-z]{1,3}\d+\./i]. *)
Definition long_number : RegExp := {|
  anchor_start := false;
  pattern := AtLeast 5 (Atom Digit);
  anchor_end := false;
  ignoreCase := false
|}.

Definition keywords : RegExp := {|
  anchor_start := false;
  pattern :=
    Alt (Word (str "temp"))
      (Alt (Word (str "test")) (Alt (Word (str "fake")) (Word (str "spam"))));
  anchor_end := false;
  ignoreCase := true
|}.

Definition short_with_numbers : RegExp := {|
  anchor_start := true;
  pattern :=
    Seq (Between 1 3 (Atom (Range "a" "z")))
      (Seq (Plus (Atom Digit)) (Atom (Lit ".")));
  anchor_end := false;
  ignoreCase := true
|}.

Definition suspiciousPatterns : list RegExp :=
  [ long_number; keywords; short_with_numbers ].

(** The element read from an array by a destructuring pattern is
    [undefined] when the array is too short. *)
Definition element (parts : list jsstring) (i : nat) : option jsstring :=
  nth_error parts i.

(** [!x] for a string or [undefined]. *)
Definition absent (x : option jsstring) : bool :=
  match x with
  | None => true
  | Some [] => true
  | Some (_ :: _) => false
  end.

Definition dns_query (domain : jsstring) (type : string) : request := {|
  url := str "https://cloudflare-dns.com/dns-query?name=" ++ domain
         ++ str "&type=" ++ str type;
  headers := [ (str "Accept", str "application/dns-json") ]
|}.

Section Worker.

(** The DNS-over-HTTPS service. *)
Variable net : request -> fetch_outcome.

(** The comparison [v > 0]. It converts [v] to a number, which for a
    string is a floating-point parse; no caller examines the result, so
    the operator is left abstract. *)
Variable greater_than_zero : value -> bool.

Definition fetch (req : request) : async body :=
  fun log =>
    (match net req with
     | Rejects => Thrown FetchFailed
     | NeverSettles => Unsettled
     | Resolves b => Normal b
     end, log ++ [req]).

(** [response.json()]. *)
Definition json (response : body) : async value :=
  match response with
  | Json data => ret data
  | NotJson => throw SyntaxError
  | BodyStalls => fun log => (Unsettled, log)
  end.

Definition getMXRecords (domain : jsstring) : async value :=
  try_catch
    (response <- fetch (dns_query domain "MX") ;;
     data <- json response ;;
     answer <- lift (get data Answer) ;;
     ret (js_or answer (VArr [])))
    (fun _ => throw (Error (str "DNS lookup failed"))).

Definition hasARecords (domain : jsstring) : async value :=
  try_catch
    (response <- fetch (dns_query domain "A") ;;
     data <- json response ;;
     answer <- lift (get data Answer) ;;
     (* data.Answer && data.Answer.length > 0 *)
     if truthy answer
     then len <- lift (get answer length_) ;;
          ret (VBool (greater_than_zero len))
     else ret answer)
    (fun _ => ret (VBool false)).

Definition getDomainInfo (domain : jsstring) : async domain_info :=
  ret {| suspicious := existsb (fun pattern => test pattern domain)
                               suspiciousPatterns |}.

Definition verifyEmail (email : jsstring) : async verdict :=
  if negb (test EMAIL_REGEX email) then ret {{ invalid, bad_syntax }}
  else
    let parts := split "@" email in
    let local := element parts 0 in
    let domain := element parts 1 in
    if absent local || absent domain then ret {{ invalid, bad_syntax }}
    else
      match local, domain with
      | Some local, Some domain =>
          (* past the guard both are strings *)
          if has DISPOSABLE_DOMAINS (toLowerCase domain)
          then ret {{ invalid, disposable_domain }}
          else if has ROLE_BASED_PREFIXES (toLowerCase local)
          then ret {{ invalid, role_based }}
          else
            try_catch
              (mxRecords <- getMXRecords domain ;;
               (* !mxRecords || mxRecords.length === 0 *)
               none <- (if negb (truthy mxRecords) then ret true
                        else len <- lift (get mxRecords length_) ;;
                             ret (strictly_zero len)) ;;
               if none
               then ret {{ invalid, no_mx }}
               else
                 hasARecord <- hasARecords domain ;;
                 domainInfo <- getDomainInfo domain ;;
                 if suspicious domainInfo
                 then ret {{ risky, suspicious_domain }}
                 else ret {{ valid, dns_verified }})
              (fun _ => ret {{ risky, dns_timeout }})
      | _, _ => throw TypeError
      end.

End Worker.

(* ================================================================== *)
(** ** The specification's vocabulary

    The definitions of this part follow the wording of the specification,
    not the source: they are what the functions above are compared with. *)

Definition is_digit (c : ascii) : bool := in_range "0" "9" c.
Definition is_lowercase_letter (c : ascii) : bool := in_range "a" "z" c.
Definition is_letter (c : ascii) : bool :=
  in_range "a" "z" c || in_range "A" "Z" c.

Definition nonempty (s : jsstring) : bool :=
  match s with
  | [] => false
  | _ :: _ => true
  end.

(** The number of ['@'] in a string. *)
Fixpoint count_at (s : jsstring) : nat :=
  match s with
  | [] => 0
  | c :: s' => (if Ascii.eqb c "@" then 1 else 0) + count_at s'
  end.

(** The text before the first ['@'] (all of it when there is none) and the
    text after it. *)
Fixpoint local_part (s : jsstring) : jsstring :=
  match s with
  | [] => []
  | c :: s' => if Ascii.eqb c "@" then [] else c :: local_part s'
  end.

Fixpoint domain_part (s : jsstring) : jsstring :=
  match s with
  | [] => []
  | c :: s' => if Ascii.eqb c "@" then s' else domain_part s'
  end.

(** A ['.'] with text after it. *)
Fixpoint dot_before_end (s : jsstring) : bool :=
  match s with
  | [] => false
  | c :: s' => (Ascii.eqb c "." && nonempty s') || dot_before_end s'
  end.

(** A ['.'] with non-empty text on both sides. *)
Definition dot_inside (d : jsstring) : bool :=
  match d with
  | [] => false
  | _ :: d' => dot_before_end d'
  end.

(** SyntaxValidator: exactly one ['@'], non-empty text before and after it,
    and a dot inside the part after it. *)
Definition well_formed (s : jsstring) : bool :=
  (count_at s =? 1) && nonempty (local_part s) && nonempty (domain_part s)
  && dot_inside (domain_part s).

(** Denylist: case-insensitive exact match against a fixed set. *)
Definition same_ignoring_case (a b : jsstring) : bool :=
  jsstring_eqb (toLowerCase a) (toLowerCase b).

Definition isDisposable (domain : jsstring) : bool :=
  existsb (same_ignoring_case domain) DISPOSABLE_DOMAINS.

Definition isRoleBased (local : jsstring) : bool :=
  existsb (same_ignoring_case local) ROLE_BASED_PREFIXES.

(** The length of the longest prefix whose units satisfy [p]. *)
Fixpoint run_length (p : ascii -> bool) (s : jsstring) : nat :=
  match s with
  | [] => 0
  | c :: s' => if p c then S (run_length p s') else 0
  end.

(** SuspicionHeuristic, predicate 1: a run of [n] or more consecutive
    digits somewhere in the string. *)
Fixpoint has_digit_run (n : nat) (s : jsstring) : bool :=
  (n <=? run_length is_digit s) ||
  match s with
  | [] => false
  | _ :: s' => has_digit_run n s'
  end.

Fixpoint starts_with (w s : jsstring) : bool :=
  match w, s with
  | [], _ => true
  | _ :: _, [] => false
  | x :: w', c :: s' => Ascii.eqb x c && starts_with w' s'
  end.

(** [w] is a substring of [s]. *)
Fixpoint includes (w s : jsstring) : bool :=
  starts_with w s ||
  match s with
  | [] => false
  | _ :: s' => includes w s'
  end.

Definition suspicious_keywords : list jsstring :=
  [ str "temp"; str "test"; str "fake"; str "spam" ].

(** Predicate 2: one of the keywords occurs, whatever the case. *)
Definition contains_keyword (d : jsstring) : bool :=
  existsb (fun w => includes w (toLowerCase d)) suspicious_keywords.

(** The text before the first ['.'], when there is one. *)
Fixpoint first_label (d : jsstring) : option jsstring :=
  match d with
  | [] => None
  | c :: d' =>
      if Ascii.eqb c "." then Some []
      else match first_label d' with
           | Some l => Some (c :: l)
           | None => None
           end
  end.

(** One to three letters immediately followed by one or more digits, and
    nothing else. *)
Definition letters_then_digits (letter : ascii -> bool) (l : jsstring) : bool :=
  let k := run_length letter l in
  (1 <=? k) && (k <=? 3) && nonempty (skipn k l) && forallb is_digit (skipn k l).

(** Predicate 3, for a given notion of letter: the first label is such a
    string, and a dot follows it. *)
Definition short_first_label (letter : ascii -> bool) (d : jsstring) : bool :=
  match first_label d with
  | Some l => letters_then_digits letter l
  | None => false
  end.


(** The outcome of NameResolver.lookup, as the specification has it. *)
Inductive lookup_result :=
| resolution_failed
| records (answer : list value).

(** The part of NameResolver.lookup on which the code does what the
    specification says: a failed call, a body that is not JSON and a null
    body fail; a JSON object gives the sequence under its [Answer] key, the
    empty one when the key is missing or null. On the other behaviours (no
    answer ever, a JSON body that is not an object, an [Answer] that is
    not a sequence) the specification says [resolution_failed] and the code
    does otherwise: they are left out here, [None], and
    [resolver_of_the_specification] below has them. *)
Definition NameResolver (o : fetch_outcome) : option lookup_result :=
  match o with
  | Rejects => Some resolution_failed
  | NeverSettles => None
  | Resolves NotJson => Some resolution_failed
  | Resolves BodyStalls => None
  | Resolves (Json VNull) => Some resolution_failed
  | Resolves (Json (VObj fields)) =>
      match lookup (str "Answer") fields with
      | VUndefined | VNull => Some (records [])
      | VArr answer => Some (records answer)
      | _ => None
      end
  | Resolves (Json _) => None
  end.

(** The call ends, one way or the other. *)
Definition settles (o : fetch_outcome) : bool :=
  match o with
  | NeverSettles | Resolves BodyStalls => false
  | _ => true
  end.





(** The ASCII capitals moved to the small letters, every other code unit
    left as it is. *)
Definition ascii_lower_unit (c : ascii) : ascii :=
  let n := code c in
  if (65 <=? n)%N && (n <=? 90)%N then ascii_of_N (n + 32) else c.

Definition ascii_lower_case (s : jsstring) : jsstring := map ascii_lower_unit s.

(** The seven rows of the status/reason table. *)
Definition verdict_table : list verdict :=
  [ {{ invalid, bad_syntax }};
    {{ invalid, disposable_domain }};
    {{ invalid, role_based }};
    {{ invalid, no_mx }};
    {{ risky, suspicious_domain }};
    {{ risky, dns_timeout }};
    {{ valid, dns_verified }} ].

(* ================================================================== *)
(** ** Notions used in the statements and proofs below *)

Definition all_units : list ascii := map ascii_of_nat (seq 0 256).

Definition NoAt (s : jsstring) : Prop :=
  Forall (fun c => Ascii.eqb c "@" = false) s.

(** The addresses the specification describes. *)
Definition address_shape (s : jsstring) : Prop :=
  exists a b c,
    s = a ++ "@"%char :: b ++ "."%char :: c /\
    a <> [] /\ b <> [] /\ c <> [] /\ NoAt a /\ NoAt b /\ NoAt c.

(** What pattern 3 matches: letters, digits, a dot. *)
Definition label_shape (letter : ascii -> bool) (ls ds : jsstring) : Prop :=
  1 <= List.length ls <= 3 /\ Forall (fun c => letter c = true) ls /\
  ds <> [] /\ Forall (fun c => is_digit c = true) ds.

Definition NoDot (s : jsstring) : Prop :=
  Forall (fun c => Ascii.eqb c "." = false) s.

(** What [getMXRecords] completes with, given what the network does with its
    request. *)
Definition mx_records (o : fetch_outcome) : completion value :=
  match o with
  | Rejects | Resolves NotJson => Thrown (Error (str "DNS lookup failed"))
  | NeverSettles | Resolves BodyStalls => Unsettled
  | Resolves (Json data) =>
      match get data Answer with
      | Normal answer => Normal (js_or answer (VArr []))
      | Thrown _ => Thrown (Error (str "DNS lookup failed"))
      | Unsettled => Unsettled
      end
  end.

(** What [hasARecords] completes with. *)
Definition a_records (greater_than_zero : value -> bool) (o : fetch_outcome)
  : completion value :=
  match o with
  | Rejects | Resolves NotJson => Normal (VBool false)
  | NeverSettles | Resolves BodyStalls => Unsettled
  | Resolves (Json data) =>
      match get data Answer with
      | Normal answer =>
          if truthy answer
          then match get answer length_ with
               | Normal len => Normal (VBool (greater_than_zero len))
               | Thrown _ => Normal (VBool false)
               | Unsettled => Unsettled
               end
          else Normal answer
      | Thrown _ => Normal (VBool false)
      | Unsettled => Unsettled
      end
  end.

(** The test [!mxRecords || mxRecords.length === 0]. *)
Definition no_records (mxRecords : value) : bool :=
  negb (truthy mxRecords) ||
  match get mxRecords length_ with
  | Normal len => strictly_zero len
  | _ => false
  end.

(** The [try] block of [verifyEmail], once [local] and [domain] are known. *)
Definition dns_checks (net : request -> fetch_outcome)
    (greater_than_zero : value -> bool) (domain : jsstring) : async verdict :=
  try_catch
    (mxRecords <- getMXRecords net domain ;;
     none <- (if negb (truthy mxRecords) then ret true
              else len <- lift (get mxRecords length_) ;;
                   ret (strictly_zero len)) ;;
     if none
     then ret {{ invalid, no_mx }}
     else
       hasARecord <- hasARecords net greater_than_zero domain ;;
       domainInfo <- getDomainInfo domain ;;
       if suspicious domainInfo
       then ret {{ risky, suspicious_domain }}
       else ret {{ valid, dns_verified }})
    (fun _ => ret {{ risky, dns_timeout }}).

(** A comparison [v > 0] for the examples: exact on numbers, [false] on the
    other values. *)
Definition number_greater_than_zero (v : value) : bool :=
  match v with
  | VNum n => (0 <? n)%Z
  | _ => false
  end.

(** A network for the examples: one behaviour for the MX queries, one for
    the others. *)
Definition dns (mx a : fetch_outcome) (req : request) : fetch_outcome :=
  if jsstring_eqb (skipn (List.length (url req) - 2) (url req)) (str "MX")
  then mx else a.

(** A well-formed response of the service. *)
Definition json_answer (items : list value) : fetch_outcome :=
  Resolves (Json (VObj [ (str "Status", VNum 0); (str "Answer", VArr items) ])).

Definition mx_record (exchange : string) : value :=
  VObj [ (str "name", VStr (str "example.com")); (str "type", VNum 15);
         (str "data", VStr (str exchange)) ].

Definition a_record (address : string) : value :=
  VObj [ (str "name", VStr (str "example.com")); (str "type", VNum 1);
         (str "data", VStr (str address)) ].

(** [items.length > 0] for an array. *)
Definition nonempty_list (items : list value) : bool :=
  match items with
  | [] => false
  | _ :: _ => true
  end.

(* ================================================================== *)
(** ** The request handler of worker.js *)

(** The part of a [Request] that [handleRequest] reads: its method and its
    body. *)
Record Request := {
  method : jsstring;
  payload : body
}.

(** What a [Response] is built from: [null], a string, or the text that
    [JSON.stringify] gives for a value. *)
Inductive content :=
| NoContent
| Text (s : jsstring)
| Stringified (v : value).

Record Response := {
  response_content : content;
  response_status : Z;
  response_headers : list (jsstring * jsstring)
}.

(** The string literals behind the statuses and the reasons. *)
Definition status_name (s : status) : jsstring :=
  match s with
  | valid => str "valid"
  | invalid => str "invalid"
  | risky => str "risky"
  end.

Definition reason_name (r : reason) : jsstring :=
  match r with
  | bad_syntax => str "bad_syntax"
  | disposable_domain => str "disposable_domain"
  | role_based => str "role_based"
  | no_mx => str "no_mx"
  | suspicious_domain => str "suspicious_domain"
  | dns_timeout => str "dns_timeout"
  | dns_verified => str "dns_verified"
  end.

(** The object [{ status, reason }] that [verifyEmail] returns. *)
Definition verdict_object (v : verdict) : value :=
  VObj [ (str "status", VStr (status_name (verdict_status v)));
         (str "reason", VStr (reason_name (verdict_reason v))) ].

(** [const { email } = data]: a TypeError on [undefined] and [null]; no
    string, number, boolean or array has a property of that name. *)
Definition get_email (data : value) : completion value :=
  match data with
  | VUndefined | VNull => Thrown TypeError
  | VObj fields => Normal (lookup (str "email") fields)
  | _ => Normal VUndefined
  end.

Definition allow_origin : jsstring * jsstring :=
  (str "Access-Control-Allow-Origin", str "*").

Definition json_headers : list (jsstring * jsstring) :=
  [ (str "Content-Type", str "application/json"); allow_origin ].

Section Handler.

Variable net : request -> fetch_outcome.
Variable greater_than_zero : value -> bool.

(** The conversion of a value that is not a string to a string, which
    [RegExp.prototype.test] applies to its argument. It joins the elements
    of an array, prints a number, and throws on an object whose own
    [toString] and [valueOf] are not functions; it is left abstract. *)
Variable ToString : value -> completion jsstring.

(** The wording of [error.message] for the errors the engine raises. *)
Variable engine_message : error -> jsstring.

Definition message (e : error) : jsstring :=
  match e with
  | Error m => m
  | _ => engine_message e
  end.

(** [verifyEmail] on an argument of any type, as [handleRequest] may pass
    it: the syntax check runs on the string form of the argument, and for
    an argument that is not a string [email.split] is not a function. *)
Definition verifyEmail_any (email : value) : async verdict :=
  match email with
  | VStr s => verifyEmail net greater_than_zero s
  | _ =>
      s <- lift (ToString email) ;;
      if negb (test EMAIL_REGEX s) then ret {{ invalid, bad_syntax }}
      else throw TypeError
  end.

Definition handleRequest (request : Request) : async Response :=
  if jsstring_eqb (method request) (str "OPTIONS")
  then ret {| response_content := NoContent;
              response_status := 200;
              response_headers :=
                [ allow_origin;
                  (str "Access-Control-Allow-Methods", str "POST, GET, OPTIONS");
                  (str "Access-Control-Allow-Headers", str "Content-Type") ] |}
  else if negb (jsstring_eqb (method request) (str "POST"))
  then ret {| response_content := Text (str "Method not allowed");
              response_status := 405;
              response_headers := [ allow_origin ] |}
  else
    try_catch
      (data <- json (payload request) ;;
       email <- lift (get_email data) ;;
       if negb (truthy email)
       then ret {| response_content :=
                     Stringified
                       (VObj [ (str "error",
                                VStr (str "Email parameter is required")) ]);
                   response_status := 400;
                   response_headers := json_headers |}
       else
         result <- verifyEmail_any email ;;
         ret {| response_content := Stringified (verdict_object result);
                response_status := 200;
                response_headers := json_headers |})
      (fun error =>
         ret {| response_content :=
                  Stringified
                    (VObj [ (str "status", VStr (str "error"));
                            (str "reason", VStr (str "internal_error"));
                            (str "message", VStr (message error)) ]);
                response_status := 500;
                response_headers := json_headers |}).

End Handler.

(** The five responses of [handleRequest], by name. *)
Definition preflight_response : Response :=
  {| response_content := NoContent;
     response_status := 200;
     response_headers :=
       [ allow_origin;
         (str "Access-Control-Allow-Methods", str "POST, GET, OPTIONS");
         (str "Access-Control-Allow-Headers", str "Content-Type") ] |}.

Definition method_not_allowed : Response :=
  {| response_content := Text (str "Method not allowed");
     response_status := 405;
     response_headers := [ allow_origin ] |}.

Definition email_required : Response :=
  {| response_content :=
       Stringified
         (VObj [ (str "error", VStr (str "Email parameter is required")) ]);
     response_status := 400;
     response_headers := json_headers |}.

Definition verdict_response (result : verdict) : Response :=
  {| response_content := Stringified (verdict_object result);
     response_status := 200;
     response_headers := json_headers |}.

Definition internal_error (text : jsstring) : Response :=
  {| response_content :=
       Stringified
         (VObj [ (str "status", VStr (str "error"));
                 (str "reason", VStr (str "internal_error"));
                 (str "message", VStr text) ]);
     response_status := 500;
     response_headers := json_headers |}.

Definition is_string (v : value) : bool :=
  match v with
  | VStr _ => true
  | _ => false
  end.

(** For the examples: the string form of an array with one string in it is
    that string; the other values are given a form without ['@']. *)
Definition sample_ToString (v : value) : completion jsstring :=
  match v with
  | VStr s => Normal s
  | VArr [VStr s] => Normal s
  | _ => Normal (str "[object Object]")
  end.

Definition sample_message (e : error) : jsstring :=
  match e with
  | TypeError => str "email.split is not a function"
  | SyntaxError => str "Unexpected token"
  | FetchFailed => str "fetch failed"
  | Error m => m
  end.

Definition post (data : value) : Request :=
  {| method := str "POST"; payload := Json data |}.

(* ================================================================== *)
(** * Properties *)

(** ** The matcher against the language of a pattern *)

Section MatcherFacts.

Variable ic : bool.

Lemma lang_seq_inv r1 r2 s :
  lang ic (Seq r1 r2) s <->
  exists s1 s2, s = s1 ++ s2 /\ lang ic r1 s1 /\ lang ic r2 s2.
Proof.
  split.
  - intros H. inversion H; subst. eauto.
  - intros (s1 & s2 & -> & H1 & H2). now constructor.
Qed.

Lemma lang_alt_inv r1 r2 s :
  lang ic (Alt r1 r2) s <-> lang ic r1 s \/ lang ic r2 s.
Proof.
  split.
  - intros H. inversion H; subst; auto.
  - intros [H | H]; [now apply lang_alt_l | now apply lang_alt_r].
Qed.

Lemma lang_atom_inv a s :
  lang ic (Atom a) s <-> exists c, s = [c] /\ charset_matches ic a c = true.
Proof.
  split.
  - intros H. inversion H; subst. eauto.
  - intros (c & -> & H). now constructor.
Qed.

Lemma lang_eps_inv s : lang ic Eps s <-> s = [].
Proof.
  split.
  - intros H. now inversion H.
  - intros ->. constructor.
Qed.

Lemma lang_empty_inv s : ~ lang ic Empty s.
Proof. intros H. inversion H. Qed.

Lemma lang_nil_nullable r s : lang ic r s -> s = [] -> nullable r = true.
Proof.
  induction 1; intros E; simpl; auto; try discriminate.
  - apply app_eq_nil in E as [E1 E2]. now rewrite IHlang1, IHlang2.
  - now rewrite IHlang.
  - rewrite IHlang; auto using orb_true_r.
Qed.

Lemma nullable_lang r : nullable r = true <-> lang ic r [].
Proof.
  split.
  - induction r; simpl; intros H; try discriminate.
    + constructor.
    + apply andb_true_iff in H as [H1 H2].
      change (@nil ascii) with (@nil ascii ++ []). constructor; auto.
    + apply orb_true_iff in H as [H | H];
        [apply lang_alt_l | apply lang_alt_r]; auto.
    + constructor.
  - intros H. now apply (lang_nil_nullable r []).
Qed.

Lemma lang_deriv r w :
  lang ic r w -> forall c s, w = c :: s -> lang ic (deriv ic c r) s.
Proof.
  induction 1; intros x t E; simpl; try discriminate.
  - injection E as -> <-. rewrite H. constructor.
  - destruct s1 as [| c1 s1']; simpl in E.
    + subst s2. rewrite (lang_nil_nullable _ _ H eq_refl).
      apply lang_alt_r. now apply IHlang2.
    + injection E as -> <-.
      destruct (nullable r1); [apply lang_alt_l |];
        constructor; auto.
  - apply lang_alt_l. auto.
  - apply lang_alt_r. auto.
  - destruct s1 as [| c1 s1']; simpl in E.
    + subst s2. now apply (IHlang2 x t).
    + injection E as -> <-. constructor; auto.
Qed.

Lemma deriv_lang c r : forall s, lang ic (deriv ic c r) s -> lang ic r (c :: s).
Proof.
  induction r; simpl; intros s H.
  - now apply lang_empty_inv in H.
  - now apply lang_empty_inv in H.
  - destruct (charset_matches ic a c) eqn:M.
    + apply lang_eps_inv in H as ->. now constructor.
    + now apply lang_empty_inv in H.
  - assert (Hseq : forall t, lang ic (Seq (deriv ic c r1) r2) t ->
                             lang ic (Seq r1 r2) (c :: t)).
    { intros t Ht. apply lang_seq_inv in Ht as (s1 & s2 & -> & H1 & H2).
      change (c :: s1 ++ s2) with ((c :: s1) ++ s2). constructor; auto. }
    destruct (nullable r1) eqn:N; auto.
    apply lang_alt_inv in H as [H | H]; auto.
    change (c :: s) with ([] ++ c :: s). constructor; auto.
    now apply nullable_lang.
  - apply lang_alt_inv in H as [H | H];
      [apply lang_alt_l | apply lang_alt_r]; auto.
  - apply lang_seq_inv in H as (s1 & s2 & -> & H1 & H2).
    change (c :: s1 ++ s2) with ((c :: s1) ++ s2). constructor; auto.
Qed.

Lemma matches_lang : forall s r, matches ic r s = true <-> lang ic r s.
Proof.
  induction s as [| c s IH]; intros r; simpl.
  - apply nullable_lang.
  - rewrite IH. split.
    + apply deriv_lang.
    + intros H. now apply (lang_deriv r (c :: s)).
Qed.

Lemma matches_prefix_lang : forall s r,
  matches_prefix ic r s = true <->
  exists m rest, s = m ++ rest /\ lang ic r m.
Proof.
  induction s as [| c s IH]; intros r; simpl; rewrite orb_true_iff.
  - split.
    + intros [H | H]; [| discriminate].
      exists [], []. split; auto. now apply nullable_lang.
    + intros (m & rest & E & H). left.
      symmetry in E. apply app_eq_nil in E as [-> _]. now apply nullable_lang.
  - rewrite IH, nullable_lang. split.
    + intros [H | (m & rest & -> & H)].
      * exists [], (c :: s). auto.
      * exists (c :: m), rest. split; auto. now apply deriv_lang.
    + intros ([| x m] & rest & E & H); auto.
      injection E as <- ->. right. exists m, rest. split; auto.
      now apply (lang_deriv r (c :: m)).
Qed.

Lemma lang_star_atom a s :
  lang ic (Star (Atom a)) s <-> Forall (fun c => charset_matches ic a c = true) s.
Proof.
  split.
  - intros H. remember (Star (Atom a)) as r eqn:E.
    induction H; try discriminate; auto.
    injection E as ->. apply Forall_app. split; auto.
    apply lang_atom_inv in H as (c & -> & M). auto.
  - induction 1 as [| c s M _ IH]; [constructor |].
    change (c :: s) with ([c] ++ s). constructor; auto. now constructor.
Qed.

Lemma lang_plus_atom a s :
  lang ic (Plus (Atom a)) s <->
  s <> [] /\ Forall (fun c => charset_matches ic a c = true) s.
Proof.
  unfold Plus. rewrite lang_seq_inv. split.
  - intros (s1 & s2 & -> & H1 & H2).
    apply lang_atom_inv in H1 as (c & -> & M).
    apply lang_star_atom in H2. split; [discriminate | now constructor].
  - intros [N F]. destruct s as [| c s]; [congruence |].
    inversion F; subst. exists [c], s. repeat split; auto.
    + now constructor.
    + now apply lang_star_atom.
Qed.

Lemma lang_repeat_atom a : forall n s,
  lang ic (Repeat n (Atom a)) s <->
  List.length s = n /\ Forall (fun c => charset_matches ic a c = true) s.
Proof.
  induction n as [| n IH]; intros s; simpl.
  - rewrite lang_eps_inv. split.
    + intros ->. auto.
    + intros [L _]. now apply length_zero_iff_nil.
  - rewrite lang_seq_inv. split.
    + intros (s1 & s2 & -> & H1 & H2).
      apply lang_atom_inv in H1 as (c & -> & M).
      apply IH in H2 as [L F]. simpl. auto.
    + intros [L F]. destruct s as [| c s]; [discriminate |].
      inversion F; subst. exists [c], s. repeat split; auto.
      * now constructor.
      * apply IH. auto.
Qed.

Lemma lang_upto_atom a : forall n s,
  lang ic (UpTo n (Atom a)) s <->
  List.length s <= n /\ Forall (fun c => charset_matches ic a c = true) s.
Proof.
  induction n as [| n IH]; intros s; simpl.
  - rewrite lang_eps_inv. split.
    + intros ->. auto.
    + intros [L _]. apply length_zero_iff_nil. lia.
  - rewrite lang_alt_inv, lang_eps_inv, lang_seq_inv. split.
    + intros [-> | (s1 & s2 & -> & H1 & H2)].
      * split; [simpl; lia | constructor].
      * apply lang_atom_inv in H1 as (c & -> & M).
        apply IH in H2 as [L F]. simpl. split; [lia | auto].
    + intros [L F]. destruct s as [| c s]; auto.
      right. inversion F; subst. exists [c], s. repeat split; auto.
      * now constructor.
      * apply IH. simpl in L. split; [lia | auto].
Qed.

Lemma lang_word : forall w s,
  lang ic (Word w) s <-> Forall2 (fun x c => unit_eq ic x c = true) w s.
Proof.
  induction w as [| x w IH]; intros s; simpl.
  - rewrite lang_eps_inv. split.
    + intros ->. constructor.
    + intros H. now inversion H.
  - rewrite lang_seq_inv. split.
    + intros (s1 & s2 & -> & H1 & H2).
      apply lang_atom_inv in H1 as (c & -> & M). constructor; auto.
      now apply IH.
    + intros H. inversion H; subst. exists [y], l'. repeat split.
      * now constructor.
      * now apply IH.
Qed.

End MatcherFacts.

Lemma search_spec (f : jsstring -> bool) : forall s,
  search f s = true <-> exists pre suf, s = pre ++ suf /\ f suf = true.
Proof.
  induction s as [| c s IH]; simpl; rewrite orb_true_iff.
  - split.
    + intros [H | H]; [| discriminate]. exists [], []. auto.
    + intros (pre & suf & E & H). symmetry in E.
      apply app_eq_nil in E as [_ ->]. auto.
  - rewrite IH. split.
    + intros [H | (pre & suf & -> & H)].
      * exists [], (c :: s). auto.
      * exists (c :: pre), suf. auto.
    + intros ([| x pre] & suf & E & H); simpl in E.
      * subst suf. auto.
      * injection E as <- ->. right. eauto.
Qed.

Lemma search_ext (f g : jsstring -> bool) :
  (forall s, f s = g s) -> forall s, search f s = search g s.
Proof.
  intros E. induction s as [| c s IH]; simpl; rewrite E; [| rewrite IH]; reflexivity.
Qed.

Lemma search_orb (f g : jsstring -> bool) : forall s,
  search (fun t => f t || g t) s = search f s || search g s.
Proof.
  induction s as [| c s IH]; simpl.
  - now rewrite !orb_false_r.
  - rewrite IH. destruct (f (c :: s)), (g (c :: s)), (search f s); reflexivity.
Qed.

(** ** Facts about single code units, by enumeration *)

Lemma all_units_complete (c : ascii) : In c all_units.
Proof.
  unfold all_units. rewrite <- (ascii_nat_embedding c).
  apply in_map, in_seq. pose proof (nat_ascii_bounded c). lia.
Qed.

Lemma for_all_units (P : ascii -> bool) :
  forallb P all_units = true -> forall c, P c = true.
Proof.
  intros H c. rewrite forallb_forall in H. apply H, all_units_complete.
Qed.

Ltac by_enumeration :=
  apply Bool.eqb_prop;
  match goal with
  | |- Bool.eqb ?l ?r = true =>
      match l with
      | context C [?c] =>
          is_var c;
          pattern c;
          match goal with
          | |- (fun x => Bool.eqb (@?f x) (@?g x) = true) c =>
              apply (for_all_units (fun x => Bool.eqb (f x) (g x)));
              vm_compute; reflexivity
          end
      end
  end.

Lemma not_at_matches c :
  charset_matches false (NotChar "@") c = negb (Ascii.eqb c "@").
Proof. by_enumeration. Qed.

Lemma at_matches c : charset_matches false (Lit "@") c = Ascii.eqb c "@".
Proof. by_enumeration. Qed.

Lemma dot_matches ic c : charset_matches ic (Lit ".") c = Ascii.eqb c ".".
Proof. destruct ic; by_enumeration. Qed.

Lemma digit_matches ic c : charset_matches ic Digit c = is_digit c.
Proof. destruct ic; by_enumeration. Qed.

Lemma letter_matches c : charset_matches true (Range "a" "z") c = is_letter c.
Proof. by_enumeration. Qed.

(** Without the [i] flag the class would be the lower-case letters only. *)
Lemma letter_matches_case_sensitive c :
  charset_matches false (Range "a" "z") c = is_lowercase_letter c.
Proof. reflexivity. Qed.

(** Under the [i] flag a lower-case ASCII letter of a pattern matches the
    units whose lower-case form it is. *)
Lemma keyword_unit_matches x c :
  In x (str "tempsfak") ->
  unit_eq true x c = Ascii.eqb x (lower_unit c).
Proof.
  intros H. simpl in H.
  repeat (destruct H as [<- | H]; [by_enumeration |]).
  contradiction.
Qed.

(** ** The shape of an address *)

Lemma count_at_zero s : count_at s = 0 <-> NoAt s.
Proof.
  induction s as [| c s IH]; simpl.
  - split; [constructor | reflexivity].
  - destruct (Ascii.eqb c "@") eqn:E; simpl.
    + split; [discriminate |]. intros H. inversion H; congruence.
    + rewrite IH. split.
      * now constructor.
      * intros H. now inversion H.
Qed.

Lemma count_at_app a d : count_at (a ++ d) = count_at a + count_at d.
Proof. induction a as [| c a IH]; simpl; [| rewrite IH]; lia. Qed.

Lemma local_part_app a d : NoAt a -> local_part (a ++ "@"%char :: d) = a.
Proof.
  induction 1 as [| c a E _ IH]; simpl; [reflexivity |].
  now rewrite E, IH.
Qed.

Lemma domain_part_app a d : NoAt a -> domain_part (a ++ "@"%char :: d) = d.
Proof.
  induction 1 as [| c a E _ IH]; simpl; [reflexivity |].
  now rewrite E.
Qed.

Lemma local_part_NoAt s : NoAt (local_part s).
Proof.
  induction s as [| c s IH]; simpl; [constructor |].
  destruct (Ascii.eqb c "@") eqn:E; now constructor.
Qed.

Lemma at_decompose s :
  count_at s <> 0 ->
  s = local_part s ++ "@"%char :: domain_part s /\
  count_at s = S (count_at (domain_part s)).
Proof.
  induction s as [| c s IH]; simpl; [congruence |].
  destruct (Ascii.eqb c "@") eqn:E; simpl; intros H.
  - apply Ascii.eqb_eq in E. subst c. auto.
  - destruct (IH H) as [E1 E2]. split; [now rewrite <- E1 | exact E2].
Qed.

Lemma nonempty_true s : nonempty s = true <-> s <> [].
Proof. destruct s; simpl; split; congruence. Qed.

Lemma dot_before_end_spec : forall s,
  dot_before_end s = true <-> exists b c, s = b ++ "."%char :: c /\ c <> [].
Proof.
  induction s as [| x s IH]; simpl.
  - split; [discriminate |]. intros ([| ? ?] & c & E & _); discriminate.
  - rewrite orb_true_iff, andb_true_iff, IH, nonempty_true. split.
    + intros [[E N] | (b & c & -> & N)].
      * apply Ascii.eqb_eq in E. subst x. exists [], s. auto.
      * exists (x :: b), c. auto.
    + intros ([| y b] & c & E & N); simpl in E; injection E as -> ->.
      * left. split; [apply Ascii.eqb_refl | exact N].
      * right. eauto.
Qed.

Lemma dot_inside_spec d :
  dot_inside d = true <->
  exists b c, d = b ++ "."%char :: c /\ b <> [] /\ c <> [].
Proof.
  destruct d as [| x d]; simpl.
  - split; [discriminate |]. intros ([| ? ?] & c & E & _); discriminate.
  - rewrite dot_before_end_spec. split.
    + intros (b & c & -> & N). exists (x :: b), c. repeat split; auto.
      discriminate.
    + intros ([| y b] & c & E & Nb & Nc); [congruence |].
      injection E as -> ->. eauto.
Qed.

Lemma split_NoAt d : NoAt d -> split "@" d = [d].
Proof.
  induction 1 as [| c d E _ IH]; simpl; [reflexivity |].
  now rewrite E, IH.
Qed.

Lemma split_app a d : NoAt a -> split "@" (a ++ "@"%char :: d) = a :: split "@" d.
Proof.
  induction 1 as [| c a E _ IH]; simpl; [reflexivity |].
  now rewrite E, IH.
Qed.

Lemma NoAt_charset s :
  Forall (fun c => charset_matches false (NotChar "@") c = true) s <-> NoAt s.
Proof.
  unfold NoAt. rewrite !Forall_forall.
  split; intros H c Hc; specialize (H c Hc); rewrite not_at_matches in *;
    now destruct (Ascii.eqb c "@").
Qed.

Lemma email_regex_lang s :
  lang false (pattern EMAIL_REGEX) s <-> address_shape s.
Proof.
  unfold address_shape. simpl. unfold not_at. split.
  - intros H.
    apply lang_seq_inv in H as (a & t1 & -> & Ha & H).
    apply lang_seq_inv in H as (x & t2 & -> & Hx & H).
    apply lang_seq_inv in H as (b & t3 & -> & Hb & H).
    apply lang_seq_inv in H as (y & c & -> & Hy & Hc).
    apply lang_plus_atom in Ha as [Na Fa], Hb as [Nb Fb], Hc as [Nc Fc].
    apply lang_atom_inv in Hx as (x0 & -> & Mx), Hy as (y0 & -> & My).
    rewrite at_matches in Mx. rewrite dot_matches in My.
    apply Ascii.eqb_eq in Mx, My. subst x0 y0.
    exists a, b, c. rewrite <- !NoAt_charset. repeat split; auto.
  - intros (a & b & c & -> & Na & Nb & Nc & Fa & Fb & Fc).
    rewrite <- NoAt_charset in Fa, Fb, Fc.
    change (a ++ "@"%char :: b ++ "."%char :: c)
      with (a ++ ["@"%char] ++ b ++ ["."%char] ++ c).
    repeat (apply lang_seq; [| ]); try (apply lang_plus_atom; auto);
      constructor; [apply at_matches | apply dot_matches]; apply Ascii.eqb_refl.
Qed.

Lemma NoAt_app a b : NoAt (a ++ b) <-> NoAt a /\ NoAt b.
Proof. apply Forall_app. Qed.

Lemma well_formed_spec s : well_formed s = true <-> address_shape s.
Proof.
  unfold well_formed, address_shape.
  rewrite !andb_true_iff, Nat.eqb_eq, !nonempty_true, dot_inside_spec. split.
  - intros [[[C Nl] Nd] (b & c & Ed & Nb & Nc)].
    destruct (at_decompose s) as [E1 E2]; [lia |].
    assert (Fd : NoAt (domain_part s)) by (apply count_at_zero; lia).
    rewrite Ed in Fd. apply NoAt_app in Fd as [Fb Fc].
    inversion Fc; subst.
    exists (local_part s), b, c. rewrite <- Ed.
    repeat split; auto using local_part_NoAt.
  - intros (a & b & c & -> & Na & Nb & Nc & Fa & Fb & Fc).
    rewrite local_part_app, domain_part_app by assumption.
    assert (Fd : NoAt (b ++ "."%char :: c)).
    { apply NoAt_app. split; auto. constructor; auto. }
    repeat split; auto.
    + rewrite count_at_app. simpl.
      apply count_at_zero in Fa, Fd. rewrite Fa, Fd. reflexivity.
    + destruct b; [congruence | discriminate].
    + exists b, c. auto.
Qed.

(** The syntax check of the source accepts exactly the well-formed
    addresses of the specification. *)
Lemma test_EMAIL_REGEX s : test EMAIL_REGEX s = well_formed s.
Proof.
  apply eq_true_iff_eq.
  change (test EMAIL_REGEX s) with (matches false (pattern EMAIL_REGEX) s).
  rewrite matches_lang, email_regex_lang. symmetry. apply well_formed_spec.
Qed.

Lemma split_address s :
  address_shape s ->
  split "@" s = [local_part s; domain_part s] /\
  local_part s <> [] /\ domain_part s <> [].
Proof.
  intros (a & b & c & -> & Na & Nb & Nc & Fa & Fb & Fc).
  assert (Fd : NoAt (b ++ "."%char :: c)).
  { apply NoAt_app. split; auto. constructor; auto. }
  rewrite local_part_app, domain_part_app, split_app, split_NoAt by assumption.
  repeat split; auto. destruct b; [congruence | discriminate].
Qed.

(** ** The suspicion patterns *)

Lemma Forall_bool_ext (f g : ascii -> bool) (s : jsstring) :
  (forall c, f c = g c) ->
  Forall (fun c => f c = true) s <-> Forall (fun c => g c = true) s.
Proof.
  intros E. rewrite !Forall_forall.
  split; intros H c Hc; specialize (H c Hc); congruence.
Qed.

Lemma run_length_prefix p : forall s,
  exists m rest,
    s = m ++ rest /\ List.length m = run_length p s /\
    Forall (fun c => p c = true) m.
Proof.
  induction s as [| c s (m & rest & E & L & F)]; simpl.
  - exists [], []. repeat split; constructor.
  - destruct (p c) eqn:P.
    + exists (c :: m), rest. simpl. repeat split; auto. congruence.
    + exists [], (c :: s). repeat split; constructor.
Qed.

Lemma run_length_app_ge p m rest :
  Forall (fun c => p c = true) m -> List.length m <= run_length p (m ++ rest).
Proof.
  induction 1 as [| c m P _ IH]; simpl; [lia |]. rewrite P. lia.
Qed.

Lemma run_length_app p m rest :
  Forall (fun c => p c = true) m ->
  match rest with [] => True | c :: _ => p c = false end ->
  run_length p (m ++ rest) = List.length m.
Proof.
  intros F R. induction F as [| c m P _ IH]; simpl.
  - destruct rest as [| c rest]; simpl; [reflexivity | now rewrite R].
  - now rewrite P, IH.
Qed.

Lemma skipn_length_app {A} (m rest : list A) :
  skipn (List.length m) (m ++ rest) = rest.
Proof. induction m; simpl; auto. Qed.

Lemma digit_run_lang n m :
  lang false (AtLeast n (Atom Digit)) m <->
  n <= List.length m /\ Forall (fun c => is_digit c = true) m.
Proof.
  unfold AtLeast. rewrite lang_seq_inv. split.
  - intros (m1 & m2 & -> & H1 & H2).
    apply lang_repeat_atom in H1 as [L F1]. apply lang_star_atom in H2.
    rewrite (Forall_bool_ext _ is_digit) in F1, H2 by apply digit_matches.
    rewrite length_app, Forall_app. split; [lia | auto].
  - intros [L F]. exists (firstn n m), (skipn n m).
    rewrite <- (firstn_skipn n m) in F. apply Forall_app in F as [F1 F2].
    rewrite firstn_skipn. split; [reflexivity |]. split.
    + apply lang_repeat_atom. split; [apply firstn_length_le; lia |].
      now rewrite (Forall_bool_ext _ is_digit) by apply digit_matches.
    + apply lang_star_atom.
      now rewrite (Forall_bool_ext _ is_digit) by apply digit_matches.
Qed.

Lemma digit_run_here n s :
  matches_prefix false (AtLeast n (Atom Digit)) s
  = (n <=? run_length is_digit s).
Proof.
  apply eq_true_iff_eq. rewrite matches_prefix_lang, Nat.leb_le. split.
  - intros (m & rest & -> & H). apply digit_run_lang in H as [L F].
    pose proof (run_length_app_ge is_digit m rest F). lia.
  - intros L. destruct (run_length_prefix is_digit s) as (m & rest & E & Lm & F).
    exists m, rest. split; [exact E |]. apply digit_run_lang. split; [lia | exact F].
Qed.

Lemma has_digit_run_search n : forall s,
  has_digit_run n s = search (fun t => n <=? run_length is_digit t) s.
Proof. induction s as [| c s IH]; simpl; [| rewrite IH]; reflexivity. Qed.

(** Pattern 1 is predicate 1. *)
Lemma test_long_number d : test long_number d = has_digit_run 5 d.
Proof.
  rewrite has_digit_run_search. unfold test. simpl.
  apply search_ext. intros s. apply digit_run_here.
Qed.

Lemma matches_prefix_alt ic r1 r2 s :
  matches_prefix ic (Alt r1 r2) s
  = matches_prefix ic r1 s || matches_prefix ic r2 s.
Proof.
  apply eq_true_iff_eq. rewrite orb_true_iff, !matches_prefix_lang. split.
  - intros (m & rest & -> & H). apply lang_alt_inv in H as [H | H]; eauto.
  - intros [(m & rest & -> & H) | (m & rest & -> & H)];
      exists m, rest; split; auto;
      [apply lang_alt_l | apply lang_alt_r]; exact H.
Qed.

Lemma keyword_here : forall w s,
  incl w (str "tempsfak") ->
  matches_prefix true (Word w) s = starts_with w (toLowerCase s).
Proof.
  intros w s I. apply eq_true_iff_eq. rewrite matches_prefix_lang.
  revert s. induction w as [| x w IH]; intros s.
  - simpl. split; [reflexivity |].
    intros _. exists [], s. split; [reflexivity | constructor].
  - assert (Ix : In x (str "tempsfak")) by (apply I; now left).
    assert (Iw : incl w (str "tempsfak")) by (intros y Hy; apply I; now right).
    destruct s as [| c s]; cbn [starts_with toLowerCase map].
    + split; [| discriminate]. intros (m & rest & E & H).
      apply lang_word in H. inversion H; subst. discriminate.
    + rewrite andb_true_iff. fold (toLowerCase s).
      rewrite <- (IH Iw s), <- keyword_unit_matches by exact Ix.
      split.
      * intros (m & rest & E & H). apply lang_word in H.
        inversion H; subst. injection E as <- ->. split; auto.
        exists l', rest. split; auto. now apply lang_word.
      * intros [U (m & rest & -> & H)]. exists (c :: m), rest. split; auto.
        apply lang_word. constructor; auto. now apply lang_word.
Qed.

Lemma includes_search w : forall s,
  includes w (toLowerCase s)
  = search (fun t => starts_with w (toLowerCase t)) s.
Proof. induction s as [| c s IH]; simpl; [| rewrite IH]; reflexivity. Qed.

(** Pattern 2 is predicate 2. *)
Lemma test_keywords d : test keywords d = contains_keyword d.
Proof.
  unfold contains_keyword, suspicious_keywords. cbn [existsb].
  rewrite !includes_search, orb_false_r, <- !search_orb.
  change (test keywords d)
    with (search (matches_prefix true
            (Alt (Word (str "temp"))
               (Alt (Word (str "test"))
                  (Alt (Word (str "fake")) (Word (str "spam")))))) d).
  apply search_ext. intros s.
  rewrite !matches_prefix_alt.
  rewrite !keyword_here; [reflexivity | | | |];
    intros y Hy; simpl in Hy; simpl; tauto.
Qed.

Lemma between_lang ic a lo hi m :
  lo <= hi ->
  lang ic (Between lo hi (Atom a)) m <->
  lo <= List.length m <= hi /\
  Forall (fun c => charset_matches ic a c = true) m.
Proof.
  intros B. unfold Between. rewrite lang_seq_inv. split.
  - intros (m1 & m2 & -> & H1 & H2).
    apply lang_repeat_atom in H1 as [L1 F1].
    apply lang_upto_atom in H2 as [L2 F2].
    rewrite length_app, Forall_app. split; [lia | auto].
  - intros [L F]. exists (firstn lo m), (skipn lo m).
    rewrite <- (firstn_skipn lo m) in F. apply Forall_app in F as [F1 F2].
    rewrite firstn_skipn. split; [reflexivity |]. split.
    + apply lang_repeat_atom. split; [apply firstn_length_le; lia | exact F1].
    + apply lang_upto_atom. split; [rewrite length_skipn; lia | exact F2].
Qed.

Lemma short_with_numbers_lang m :
  lang true (pattern short_with_numbers) m <->
  exists ls ds, m = ls ++ ds ++ ["."%char] /\ label_shape is_letter ls ds.
Proof.
  unfold label_shape.
  change (pattern short_with_numbers)
    with (Seq (Between 1 3 (Atom (Range "a" "z")))
            (Seq (Plus (Atom Digit)) (Atom (Lit ".")))).
  rewrite lang_seq_inv. split.
  - intros (ls & t & -> & Hl & H).
    apply lang_seq_inv in H as (ds & x & -> & Hd & Hx).
    apply between_lang in Hl as [L Fl]; [| lia].
    apply lang_plus_atom in Hd as [Nd Fd].
    apply lang_atom_inv in Hx as (c & -> & M).
    rewrite dot_matches in M. apply Ascii.eqb_eq in M. subst c.
    rewrite (Forall_bool_ext _ is_letter) in Fl by apply letter_matches.
    rewrite (Forall_bool_ext _ is_digit) in Fd by apply digit_matches.
    exists ls, ds. auto.
  - intros (ls & ds & -> & L & Fl & Nd & Fd).
    exists ls, (ds ++ ["."%char]). split; [reflexivity |]. split.
    + apply between_lang; [lia |]. split; [exact L |].
      now rewrite (Forall_bool_ext _ is_letter) by apply letter_matches.
    + constructor.
      * apply lang_plus_atom. split; [exact Nd |].
        now rewrite (Forall_bool_ext _ is_digit) by apply digit_matches.
      * constructor. rewrite dot_matches. apply Ascii.eqb_refl.
Qed.

Lemma first_label_some : forall d l,
  first_label d = Some l <-> exists rest, d = l ++ "."%char :: rest /\ NoDot l.
Proof.
  induction d as [| c d IH]; intros l; simpl.
  - split; [discriminate |]. intros (rest & E & _). destruct l; discriminate.
  - destruct (Ascii.eqb c ".") eqn:E.
    + apply Ascii.eqb_eq in E. subst c. split.
      * intros [= <-]. exists d. split; [reflexivity | constructor].
      * intros (rest & E & F). destruct l as [| x l]; [reflexivity |].
        injection E as <- _. inversion F; subst. discriminate.
    + split.
      * destruct (first_label d) as [l' |] eqn:El; [| discriminate].
        intros [= <-]. destruct (proj1 (IH l') eq_refl) as (rest & -> & F).
        exists rest. split; [reflexivity | now constructor].
      * intros (rest & E' & F). destruct l as [| x l]; simpl in E'.
        -- injection E' as -> _. discriminate.
        -- injection E' as <- ->. inversion F; subst.
           rewrite (proj2 (IH l)); eauto.
Qed.

Lemma digit_not_dot c : is_digit c = true -> Ascii.eqb c "." = false.
Proof.
  assert (E : (is_digit c && Ascii.eqb c ".") = false) by by_enumeration.
  intros D. now rewrite D in E.
Qed.

Lemma letter_not_dot c : is_letter c = true -> Ascii.eqb c "." = false.
Proof.
  assert (E : (is_letter c && Ascii.eqb c ".") = false) by by_enumeration.
  intros D. now rewrite D in E.
Qed.

Lemma letter_not_digit c : is_letter c = true -> is_digit c = false.
Proof.
  assert (E : (is_letter c && is_digit c) = false) by by_enumeration.
  intros D. now rewrite D in E.
Qed.

Lemma short_first_label_spec (letter : ascii -> bool) d :
  (forall c, letter c = true -> is_digit c = false) ->
  (forall c, letter c = true -> Ascii.eqb c "." = false) ->
  short_first_label letter d = true <->
  exists ls ds rest,
    d = ls ++ ds ++ "."%char :: rest /\ label_shape letter ls ds.
Proof.
  intros Disjoint Dotless. unfold short_first_label, label_shape. split.
  - destruct (first_label d) as [l |] eqn:El; [| discriminate].
    apply first_label_some in El as (rest & -> & _).
    unfold letters_then_digits.
    destruct (run_length_prefix letter l) as (ls & ds & -> & <- & Fl).
    rewrite skipn_length_app, !andb_true_iff, !Nat.leb_le, nonempty_true,
      forallb_forall, <- Forall_forall.
    intros [[[L1 L3] Nd] Fd]. exists ls, ds, rest.
    rewrite <- app_assoc. auto.
  - intros (ls & ds & rest & -> & L & Fl & Nd & Fd).
    assert (F : NoDot (ls ++ ds)).
    { apply Forall_app. split.
      - eapply Forall_impl; [| exact Fl]. apply Dotless.
      - eapply Forall_impl; [| exact Fd]. apply digit_not_dot. }
    rewrite app_assoc, (proj2 (first_label_some _ (ls ++ ds))) by eauto.
    unfold letters_then_digits. rewrite run_length_app.
    + rewrite skipn_length_app, !andb_true_iff, !Nat.leb_le, nonempty_true,
        forallb_forall, <- Forall_forall. auto.
    + exact Fl.
    + destruct ds as [| c ds]; [exact I |]. inversion Fd; subst.
      destruct (letter c) eqn:P; [| reflexivity].
      apply Disjoint in P. congruence.
Qed.

(** Pattern 3 is predicate 3 with letters of either case. *)
Lemma test_short_with_numbers d :
  test short_with_numbers d = short_first_label is_letter d.
Proof.
  apply eq_true_iff_eq.
  change (test short_with_numbers d)
    with (matches_prefix true (pattern short_with_numbers) d).
  rewrite matches_prefix_lang,
    (short_first_label_spec is_letter d letter_not_digit letter_not_dot).
  split.
  - intros (m & rest & -> & H).
    apply short_with_numbers_lang in H as (ls & ds & -> & S).
    exists ls, ds, rest. rewrite <- !app_assoc. auto.
  - intros (ls & ds & rest & -> & S).
    exists (ls ++ ds ++ ["."%char]), rest. rewrite <- !app_assoc. split; auto.
    apply short_with_numbers_lang. eauto.
Qed.

Lemma suspicious_patterns d :
  existsb (fun pattern => test pattern d) suspiciousPatterns
  = has_digit_run 5 d || contains_keyword d || short_first_label is_letter d.
Proof.
  unfold suspiciousPatterns. cbn [existsb].
  rewrite test_long_number, test_keywords, test_short_with_numbers, orb_false_r.
  apply orb_assoc.
Qed.

(** ** Running the engine *)

Section Runs.

Variable net : request -> fetch_outcome.
Variable gt0 : value -> bool.

Lemma getMXRecords_run domain log :
  getMXRecords net domain log
  = (mx_records (net (dns_query domain "MX")), log ++ [dns_query domain "MX"]).
Proof.
  unfold getMXRecords, try_catch, bind, fetch, json, lift, ret, throw, mx_records.
  destruct (net (dns_query domain "MX")) as [| | [data | |]]; try reflexivity.
  destruct (get data Answer); reflexivity.
Qed.

Lemma hasARecords_run domain log :
  hasARecords net gt0 domain log
  = (a_records gt0 (net (dns_query domain "A")), log ++ [dns_query domain "A"]).
Proof.
  unfold hasARecords, try_catch, bind, fetch, json, lift, ret, throw, a_records.
  destruct (net (dns_query domain "A")) as [| | [data | |]]; try reflexivity.
  destruct (get data Answer) as [answer | |]; try reflexivity.
  destruct (truthy answer); try reflexivity.
  destruct (get answer length_); reflexivity.
Qed.

Lemma get_settles v p :
  (exists w, get v p = Normal w) \/ (exists e, get v p = Thrown e).
Proof. destruct v, p; simpl; eauto. Qed.

(** [hasARecords] never throws, and completes when the call settles. *)
Lemma a_records_settled o :
  match a_records gt0 o with
  | Normal _ => settles o = true
  | Thrown _ => False
  | Unsettled => settles o = false
  end.
Proof.
  destruct o as [| | [data | |]]; simpl; try reflexivity.
  destruct (get_settles data Answer) as [[answer ->] | [e ->]]; try reflexivity.
  destruct (truthy answer); try reflexivity.
  destruct (get_settles answer length_) as [[len ->] | [e ->]]; reflexivity.
Qed.

Lemma mx_records_settled o :
  match mx_records o with
  | Unsettled => settles o = false
  | _ => settles o = true
  end.
Proof.
  destruct o as [| | [data | |]]; simpl; try reflexivity.
  destruct (get_settles data Answer) as [[answer ->] | [e ->]]; reflexivity.
Qed.

Lemma truthy_has_length v : truthy v = true -> exists len, get v length_ = Normal len.
Proof. destruct v as [| | | | | |]; simpl; try discriminate; eauto. Qed.

(** The [try] block, by cases on what the two lookups complete with. *)
Lemma dns_checks_run domain log :
  dns_checks net gt0 domain log =
  let mx := dns_query domain "MX" in
  let a := dns_query domain "A" in
  match mx_records (net mx) with
  | Thrown _ => (Normal {{ risky, dns_timeout }}, log ++ [mx])
  | Unsettled => (Unsettled, log ++ [mx])
  | Normal mxRecords =>
      if no_records mxRecords then (Normal {{ invalid, no_mx }}, log ++ [mx])
      else
        match a_records gt0 (net a) with
        | Unsettled => (Unsettled, (log ++ [mx]) ++ [a])
        | _ =>
            (Normal (if existsb (fun pattern => test pattern domain)
                                suspiciousPatterns
                     then {{ risky, suspicious_domain }}
                     else {{ valid, dns_verified }}),
             (log ++ [mx]) ++ [a])
        end
  end.
Proof.
  cbv zeta. unfold dns_checks, try_catch, bind at 1.
  rewrite getMXRecords_run.
  destruct (mx_records (net (dns_query domain "MX"))) as [mxRecords | |];
    try reflexivity.
  unfold no_records, bind at 1.
  destruct (truthy mxRecords) eqn:T.
  - destruct (truthy_has_length _ T) as [len E]. rewrite E.
    unfold lift, bind at 1. cbn [negb orb ret].
    destruct (strictly_zero len); [reflexivity |].
    unfold bind at 1. rewrite hasARecords_run.
    pose proof (a_records_settled (net (dns_query domain "A"))) as S.
    destruct (a_records gt0 (net (dns_query domain "A"))); try reflexivity.
    + unfold bind, getDomainInfo, ret. cbn [suspicious].
      destruct (existsb _ suspiciousPatterns); reflexivity.
    + contradiction.
  - reflexivity.
Qed.

Lemma has_lowercase set s :
  forallb (fun e => jsstring_eqb (toLowerCase e) e) set = true ->
  has set (toLowerCase s) = existsb (same_ignoring_case s) set.
Proof.
  unfold has, same_ignoring_case.
  induction set as [| e set IH]; simpl; [reflexivity |].
  rewrite andb_true_iff. intros [E H]. rewrite (IH H). f_equal.
  unfold jsstring_eqb in E.
  destruct (list_eq_dec ascii_dec (toLowerCase e) e) as [-> |]; congruence.
Qed.

Lemma has_DISPOSABLE_DOMAINS d :
  has DISPOSABLE_DOMAINS (toLowerCase d) = isDisposable d.
Proof. now apply has_lowercase. Qed.

Lemma has_ROLE_BASED_PREFIXES l :
  has ROLE_BASED_PREFIXES (toLowerCase l) = isRoleBased l.
Proof. now apply has_lowercase. Qed.

(** The syntax check rejects: no request is issued. *)
Lemma verifyEmail_malformed email log :
  well_formed email = false ->
  verifyEmail net gt0 email log = (Normal {{ invalid, bad_syntax }}, log).
Proof.
  intros W. unfold verifyEmail. now rewrite test_EMAIL_REGEX, W.
Qed.

(** The syntax check accepts: the two pieces of the split are the local
    part and the domain, and the rest of the function runs on them. *)
Lemma verifyEmail_well_formed email log :
  well_formed email = true ->
  verifyEmail net gt0 email log =
  if isDisposable (domain_part email)
  then (Normal {{ invalid, disposable_domain }}, log)
  else if isRoleBased (local_part email)
  then (Normal {{ invalid, role_based }}, log)
  else dns_checks net gt0 (domain_part email) log.
Proof.
  intros W. unfold verifyEmail. rewrite test_EMAIL_REGEX, W. cbn [negb].
  apply well_formed_spec, split_address in W as (-> & Nl & Nd).
  cbn [element nth_error].
  destruct (local_part email) as [| x l]; [congruence |].
  destruct (domain_part email) as [| y d]; [congruence |].
  cbn [absent orb].
  rewrite has_DISPOSABLE_DOMAINS, has_ROLE_BASED_PREFIXES.
  destruct (isDisposable (y :: d)); [reflexivity |].
  destruct (isRoleBased (x :: l)); reflexivity.
Qed.

End Runs.

(** ** The pipeline on the addresses of the specification's test list *)

Example disposable_whatever_the_case :
  verifyEmail (fun _ => Rejects) number_greater_than_zero
    (str "user@Mailinator.COM") []
  = (Normal {{ invalid, disposable_domain }}, []).
Proof. reflexivity. Qed.

Example role_based_local_part :
  verifyEmail (fun _ => Rejects) number_greater_than_zero
    (str "info@example.com") []
  = (Normal {{ invalid, role_based }}, []).
Proof. reflexivity. Qed.

Example keyword_in_domain :
  fst (verifyEmail (fun _ => json_answer [mx_record "mx.test123.co"])
         number_greater_than_zero (str "user@test123.co") [])
  = Normal {{ risky, suspicious_domain }}.
Proof. reflexivity. Qed.

Example two_at_signs :
  test EMAIL_REGEX (str "a@b@c.d") = false /\
  split "@" (str "a@b@c.d") = [str "a"; str "b"; str "c.d"].
Proof. split; reflexivity. Qed.

(** ** The verdicts *)




(** C2. A string that does not have exactly one ['@'], or has an empty
    local or domain part, or has no dot with text on both sides in its
    domain, gets [{invalid, bad_syntax}], and the log of requests is left
    as it was: the network is not called. *)
Theorem bad_syntax_without_network net gt0 email log :
  count_at email <> 1 \/ local_part email = [] \/ domain_part email = []
  \/ dot_inside (domain_part email) = false ->
  verifyEmail net gt0 email log = (Normal {{ invalid, bad_syntax }}, log).
Proof.
  intros H. apply verifyEmail_malformed. unfold well_formed.
  destruct H as [H | [H | [H | H]]].
  - apply Nat.eqb_neq in H. now rewrite H.
  - rewrite H. cbn [nonempty]. now rewrite andb_false_r.
  - rewrite H. cbn [nonempty]. now rewrite andb_false_r.
  - rewrite H. apply andb_false_r.
Qed.

Lemma bad_syntax_without_network_witness :
  verifyEmail (fun _ => Rejects) number_greater_than_zero
    (str "first.last@localhost") []
  = (Normal {{ invalid, bad_syntax }}, []).
Proof.
  apply (bad_syntax_without_network (fun _ => Rejects)
           number_greater_than_zero (str "first.last@localhost") []).
  right. right. right. reflexivity.
Defined.

(** C10. For every string the syntax pattern accepts, splitting on ['@']
    gives exactly a non-empty local part and a non-empty domain, so the
    guard [!local || !domain] after the split is false: its branch is never
    taken. *)
Theorem second_guard_unreachable email :
  test EMAIL_REGEX email = true ->
  exists local domain,
    split "@" email = [local; domain] /\ local <> [] /\ domain <> [] /\
    absent (element (split "@" email) 0)
    || absent (element (split "@" email) 1) = false.
Proof.
  rewrite test_EMAIL_REGEX. intros W.
  apply well_formed_spec, split_address in W as (E & Nl & Nd).
  exists (local_part email), (domain_part email). rewrite E.
  repeat split; auto. cbn [element nth_error].
  destruct (local_part email); [congruence |].
  destruct (domain_part email); [congruence | reflexivity].
Qed.

Lemma second_guard_unreachable_witness :
  exists local domain,
    split "@" (str "a@b.c") = [local; domain] /\ local <> [] /\ domain <> [] /\
    absent (element (split "@" (str "a@b.c")) 0)
    || absent (element (split "@" (str "a@b.c")) 1) = false.
Proof.
  apply (second_guard_unreachable (str "a@b.c")). reflexivity.
Defined.

(** C3 (as the code has it). [getDomainInfo] flags a domain exactly when
    one of three predicates holds: a run of five or more digits; one of the
    keywords "temp", "test", "fake", "spam" in any case; a first label made
    of one to three letters of either case, then one or more digits, with a
    dot right after. *)
Theorem getDomainInfo_suspicious domain log :
  exists info,
    getDomainInfo domain log = (Normal info, log) /\
    (suspicious info = true <->
     has_digit_run 5 domain = true \/ contains_keyword domain = true
     \/ short_first_label is_letter domain = true).
Proof.
  eexists. split; [reflexivity |]. cbn [suspicious].
  rewrite suspicious_patterns, !orb_true_iff. tauto.
Qed.

(** C3, as stated with lower-case letters only, fails on a label in
    capitals: the domain is flagged although none of the three stated
    predicates holds. *)
Lemma capital_label_is_flagged :
  getDomainInfo (str "AB12.co") []
  = (Normal {| suspicious := true |}, []) /\
  has_digit_run 5 (str "AB12.co") = false /\
  contains_keyword (str "AB12.co") = false /\
  short_first_label is_lowercase_letter (str "AB12.co") = false.
Proof. repeat split; reflexivity. Qed.



(** C5 (as the code has it). When the MX lookup fails in one of the ways
    the code detects (the call is rejected, which is how a network failure
    and a timeout of the platform arrive; the response is not JSON; the
    response is null), [verifyEmail] returns [{risky, dns_timeout}]: the
    completion is a value, the error is not passed on to the caller. *)
Theorem mx_failure_is_dns_timeout net gt0 email log :
  well_formed email = true ->
  isDisposable (domain_part email) = false ->
  isRoleBased (local_part email) = false ->
  net (dns_query (domain_part email) "MX") = Rejects
  \/ net (dns_query (domain_part email) "MX") = Resolves NotJson
  \/ net (dns_query (domain_part email) "MX") = Resolves (Json VNull) ->
  verifyEmail net gt0 email log
  = (Normal {{ risky, dns_timeout }},
     log ++ [dns_query (domain_part email) "MX"]).
Proof.
  intros W D R F.
  rewrite verifyEmail_well_formed, D, R, dns_checks_run by exact W. cbv zeta.
  destruct F as [-> | [-> | ->]]; reflexivity.
Qed.

Lemma mx_failure_is_dns_timeout_witness :
  verifyEmail (fun _ => Rejects) number_greater_than_zero
    (str "user@legitcompany.com") []
  = (Normal {{ risky, dns_timeout }},
     [dns_query (str "legitcompany.com") "MX"]).
Proof.
  apply (mx_failure_is_dns_timeout (fun _ => Rejects)
           number_greater_than_zero (str "user@legitcompany.com") []);
    try reflexivity.
  left. reflexivity.
Defined.

(** C5, as stated, fails on the other malformed responses and on a lookup
    that is never answered: a body that is the number 7 is answered with
    [{invalid, no_mx}], a response whose [Answer] is a string with
    [{valid, dns_verified}], and without an answer the verification stays
    pending; none of them gives [{risky, dns_timeout}]. *)
Lemma malformed_response_is_not_a_failure :
  verifyEmail (fun _ => Resolves (Json (VNum 7)))
    number_greater_than_zero (str "user@legitcompany.com") []
  = (Normal {{ invalid, no_mx }}, [dns_query (str "legitcompany.com") "MX"])
  /\ fst (verifyEmail
            (dns (Resolves (Json (VObj [ (str "Answer",
                                          VStr (str "SERVFAIL")) ])))
                 (json_answer []))
            number_greater_than_zero (str "user@legitcompany.com") [])
     = Normal {{ valid, dns_verified }}
  /\ fst (verifyEmail (fun _ => NeverSettles)
            number_greater_than_zero (str "user@legitcompany.com") [])
     = Unsettled.
Proof. repeat split; reflexivity. Qed.

(** C6. When the MX lookup succeeds with an empty or a missing answer,
    [getMXRecords] returns the empty array, not an error, and [verifyEmail]
    returns [{invalid, no_mx}]. *)
Theorem empty_answer_is_no_mx net gt0 email fields log :
  well_formed email = true ->
  isDisposable (domain_part email) = false ->
  isRoleBased (local_part email) = false ->
  net (dns_query (domain_part email) "MX") = Resolves (Json (VObj fields)) ->
  lookup (str "Answer") fields = VUndefined
  \/ lookup (str "Answer") fields = VArr [] ->
  getMXRecords net (domain_part email) log
  = (Normal (VArr []), log ++ [dns_query (domain_part email) "MX"])
  /\ verifyEmail net gt0 email log
     = (Normal {{ invalid, no_mx }},
        log ++ [dns_query (domain_part email) "MX"]).
Proof.
  intros W D R N A.
  assert (M : mx_records (net (dns_query (domain_part email) "MX"))
              = Normal (VArr [])).
  { rewrite N. unfold mx_records, get, property_name.
    destruct A as [-> | ->]; reflexivity. }
  split.
  - now rewrite getMXRecords_run, M.
  - rewrite verifyEmail_well_formed, D, R, dns_checks_run by exact W.
    cbv zeta. now rewrite M.
Qed.

Lemma empty_answer_is_no_mx_witness :
  getMXRecords (fun _ => Resolves (Json (VObj [ (str "Status", VNum 3) ])))
    (str "nowhere.example") []
  = (Normal (VArr []), [dns_query (str "nowhere.example") "MX"])
  /\ verifyEmail (fun _ => Resolves (Json (VObj [ (str "Status", VNum 3) ])))
       number_greater_than_zero (str "user@nowhere.example") []
     = (Normal {{ invalid, no_mx }}, [dns_query (str "nowhere.example") "MX"]).
Proof.
  apply (empty_answer_is_no_mx
           (fun _ => Resolves (Json (VObj [ (str "Status", VNum 3) ])))
           number_greater_than_zero (str "user@nowhere.example")
           [ (str "Status", VNum 3) ] []);
    try reflexivity.
  left. reflexivity.
Defined.

(** C7. Every result of [verifyEmail] is one of the seven rows of the
    status/reason table: the function never throws, it completes whenever
    the lookups it issues end, and what it returns is in the table; each of
    the seven rows is returned for some input. *)
Theorem verdicts_are_the_table net gt0 email log :
  match fst (verifyEmail net gt0 email log) with
  | Normal v => In v verdict_table
  | Thrown _ => False
  | Unsettled =>
      settles (net (dns_query (domain_part email) "MX")) = false
      \/ settles (net (dns_query (domain_part email) "A")) = false
  end
  /\ Forall
       (fun v => exists net' email',
          fst (verifyEmail net' gt0 email' []) = Normal v)
       verdict_table.
Proof.
  split.
  - destruct (well_formed email) eqn:W.
    + rewrite verifyEmail_well_formed by exact W.
      destruct (isDisposable (domain_part email)); [simpl; tauto |].
      destruct (isRoleBased (local_part email)); [simpl; tauto |].
      rewrite dns_checks_run. cbv zeta.
      pose proof (mx_records_settled
                    (net (dns_query (domain_part email) "MX"))) as M.
      destruct (mx_records (net (dns_query (domain_part email) "MX")))
        as [mxRecords | |]; [| simpl; tauto | simpl; tauto].
      destruct (no_records mxRecords); [simpl; tauto |].
      pose proof (a_records_settled gt0
                    (net (dns_query (domain_part email) "A"))) as A.
      destruct (a_records gt0 (net (dns_query (domain_part email) "A")));
        [| contradiction | simpl; tauto].
      destruct (existsb _ suspiciousPatterns); simpl; tauto.
    + rewrite verifyEmail_malformed by exact W. simpl. tauto.
  - unfold verdict_table. repeat constructor.
    + exists (fun _ => Rejects), (str "nobody"). reflexivity.
    + exists (fun _ => Rejects), (str "user@Mailinator.COM"). reflexivity.
    + exists (fun _ => Rejects), (str "info@example.com"). reflexivity.
    + exists (fun _ => json_answer []), (str "user@example.com"). reflexivity.
    + exists (fun _ => json_answer [mx_record "mx.test123.co"]),
        (str "user@test123.co").
      reflexivity.
    + exists (fun _ => Rejects), (str "user@example.com"). reflexivity.
    + exists (fun _ => json_answer [mx_record "mail.legitcompany.com"]),
        (str "user@legitcompany.com").
      reflexivity.
Qed.

(** C8 (as the code has it). An exception raised by the MX lookup, whatever
    it is, is caught inside [verifyEmail] and becomes an ordinary verdict
    with a status other than [valid]: [{risky, dns_timeout}] when the
    address had passed the static checks. [verifyEmail] completes with a
    value, so no failure outcome other than a verdict leaves it. *)
Theorem faults_become_dns_timeout net gt0 email log e log' :
  getMXRecords net (domain_part email) log = (Thrown e, log') ->
  exists v,
    fst (verifyEmail net gt0 email log) = Normal v /\
    verdict_status v <> valid /\
    (well_formed email && negb (isDisposable (domain_part email))
     && negb (isRoleBased (local_part email)) = true ->
     v = {{ risky, dns_timeout }}).
Proof.
  rewrite getMXRecords_run. intros [= M _].
  destruct (well_formed email) eqn:W.
  - rewrite verifyEmail_well_formed by exact W.
    destruct (isDisposable (domain_part email)).
    { eexists. repeat split; [discriminate | discriminate]. }
    destruct (isRoleBased (local_part email)).
    { eexists. repeat split; [discriminate | discriminate]. }
    rewrite dns_checks_run. cbv zeta. rewrite M.
    eexists. repeat split. discriminate.
  - rewrite verifyEmail_malformed by exact W.
    eexists. repeat split; [discriminate | discriminate].
Qed.

Lemma faults_become_dns_timeout_witness :
  exists v,
    fst (verifyEmail (fun _ => Resolves NotJson) number_greater_than_zero
           (str "user@legitcompany.com") []) = Normal v /\
    verdict_status v <> valid /\
    (true = true -> v = {{ risky, dns_timeout }}).
Proof.
  apply (faults_become_dns_timeout (fun _ => Resolves NotJson)
           number_greater_than_zero (str "user@legitcompany.com") []
           (Error (str "DNS lookup failed"))
           [dns_query (str "legitcompany.com") "MX"]).
  reflexivity.
Defined.

(** C8, as stated, fails twice. A record set that is not a sequence (here
    a single record where an array is expected) raises nothing and is taken
    for a non-empty answer: the address is declared valid. And a fault that
    is raised (here a body that is not JSON) comes out as a verdict of
    status [risky], not as a failure outcome of its own. *)
Lemma malformed_record_set_is_accepted :
  NameResolver
    (Resolves (Json (VObj [ (str "Answer", mx_record "mail.legitcompany.com") ])))
  = None
  /\ verifyEmail
       (dns (Resolves (Json (VObj [ (str "Answer",
                                     mx_record "mail.legitcompany.com") ])))
            (json_answer []))
       number_greater_than_zero (str "user@legitcompany.com") []
     = (Normal {{ valid, dns_verified }},
        [ dns_query (str "legitcompany.com") "MX";
          dns_query (str "legitcompany.com") "A" ])
  /\ fst (verifyEmail (fun _ => Resolves NotJson) number_greater_than_zero
            (str "user@legitcompany.com") [])
     = Normal {{ risky, dns_timeout }}.
Proof. repeat split; reflexivity. Qed.

(** C9 (as the code has it). No lookup is bounded in time by the engine and
    none is repeated: a verification issues no request, or the MX query, or
    the MX query and then the A query, each once; it stays pending exactly
    when the last request it issued never ends. *)
Theorem lookups_are_single_and_unbounded net gt0 email log :
  let mx := dns_query (domain_part email) "MX" in
  let a := dns_query (domain_part email) "A" in
  exists issued,
    snd (verifyEmail net gt0 email log) = log ++ issued /\
    (issued = [] \/ issued = [mx] \/ issued = [mx; a]) /\
    (fst (verifyEmail net gt0 email log) = Unsettled <->
     (issued = [mx] /\ settles (net mx) = false)
     \/ (issued = [mx; a] /\ settles (net a) = false)).
Proof.
  cbv zeta.
  assert (Nil : forall c : completion verdict,
            c <> Unsettled ->
            exists issued,
              snd (c, log) = log ++ issued /\
              (issued = [] \/ issued = [dns_query (domain_part email) "MX"]
               \/ issued = [dns_query (domain_part email) "MX";
                            dns_query (domain_part email) "A"]) /\
              (fst (c, log) = Unsettled <->
               (issued = [dns_query (domain_part email) "MX"] /\
                settles (net (dns_query (domain_part email) "MX")) = false)
               \/ (issued = [dns_query (domain_part email) "MX";
                             dns_query (domain_part email) "A"] /\
                   settles (net (dns_query (domain_part email) "A")) = false))).
  { intros c Hc. exists []. cbn [fst snd]. rewrite app_nil_r.
    repeat split; auto.
    - intros E. congruence.
    - intros [[E _] | [E _]]; discriminate. }
  destruct (well_formed email) eqn:W.
  - rewrite verifyEmail_well_formed by exact W.
    destruct (isDisposable (domain_part email)); [apply Nil; discriminate |].
    destruct (isRoleBased (local_part email)); [apply Nil; discriminate |].
    rewrite dns_checks_run. cbv zeta.
    pose proof (mx_records_settled
                  (net (dns_query (domain_part email) "MX"))) as M.
    assert (One : forall c : completion verdict,
              (c = Unsettled <->
               settles (net (dns_query (domain_part email) "MX")) = false) ->
              exists issued,
                snd (c, log ++ [dns_query (domain_part email) "MX"])
                = log ++ issued /\
                (issued = [] \/ issued = [dns_query (domain_part email) "MX"]
                 \/ issued = [dns_query (domain_part email) "MX";
                              dns_query (domain_part email) "A"]) /\
                (fst (c, log ++ [dns_query (domain_part email) "MX"])
                 = Unsettled <->
                 (issued = [dns_query (domain_part email) "MX"] /\
                  settles (net (dns_query (domain_part email) "MX")) = false)
                 \/ (issued = [dns_query (domain_part email) "MX";
                               dns_query (domain_part email) "A"] /\
                     settles (net (dns_query (domain_part email) "A")) = false))).
    { intros c Hc. exists [dns_query (domain_part email) "MX"]. cbn [fst snd].
      repeat split; auto.
      - intros E. left. split; [reflexivity | now apply Hc].
      - intros [[_ E] | [E _]]; [now apply Hc | discriminate]. }
    destruct (mx_records (net (dns_query (domain_part email) "MX")))
      as [mxRecords | |].
    + destruct (no_records mxRecords).
      { apply One. split; [discriminate | congruence]. }
      pose proof (a_records_settled gt0
                    (net (dns_query (domain_part email) "A"))) as A.
      exists [dns_query (domain_part email) "MX";
              dns_query (domain_part email) "A"].
      destruct (a_records gt0 (net (dns_query (domain_part email) "A")));
        [| contradiction |]; cbn [fst snd]; rewrite <- app_assoc;
        (split; [reflexivity |]); (split; [auto |]); split.
      * discriminate.
      * intros [[E _] | [_ E]]; [discriminate | congruence].
      * auto.
      * reflexivity.
    + apply One. split; [discriminate | congruence].
    + apply One. split; [intros _; exact M | reflexivity].
  - rewrite verifyEmail_malformed by exact W. apply Nil. discriminate.
Qed.

(** C9, as stated, fails: a lookup that is never answered is not cut short
    and turned into a failure; the verification stays pending, where a
    rejected call gives [{risky, dns_timeout}]. *)
Lemma unanswered_lookup_never_times_out :
  verifyEmail (fun _ => NeverSettles) number_greater_than_zero
    (str "user@legitcompany.com") []
  = (Unsettled, [dns_query (str "legitcompany.com") "MX"])
  /\ verifyEmail (fun _ => Rejects) number_greater_than_zero
       (str "user@legitcompany.com") []
     = (Normal {{ risky, dns_timeout }},
        [dns_query (str "legitcompany.com") "MX"]).
Proof. split; reflexivity. Qed.

(* ================================================================== *)
(** * Further properties of worker.js *)

(** ** The two lookups *)

(** X1. Whatever makes [getMXRecords] fail, the error it throws is the one
    of its own [catch], "DNS lookup failed": the error of [fetch], of
    [response.json()] or of the property access is dropped; and one
    request, the MX query, has been issued. *)
Theorem getMXRecords_error_is_generic net domain log e log' :
  getMXRecords net domain log = (Thrown e, log') ->
  e = Error (str "DNS lookup failed") /\ log' = log ++ [dns_query domain "MX"].
Proof.
  rewrite getMXRecords_run. intros [= M <-]. split; [| reflexivity].
  unfold mx_records in M.
  destruct (net (dns_query domain "MX")) as [| | [data | |]]; try congruence.
  destruct (get data Answer); congruence.
Qed.

Lemma getMXRecords_error_is_generic_witness :
  Error (str "DNS lookup failed") = Error (str "DNS lookup failed") /\
  [dns_query (str "example.com") "MX"]
  = [] ++ [dns_query (str "example.com") "MX"].
Proof.
  apply (getMXRecords_error_is_generic (fun _ => Resolves (Json VNull))
           (str "example.com") []).
  reflexivity.
Defined.



(** X3. When the response to the A query carries an array under [Answer],
    [hasARecords] returns [true] exactly when the array is not empty
    (given that [n > 0] on a number is the comparison of numbers). *)
Theorem hasARecords_on_array net gt0 domain fields items log :
  (forall n, gt0 (VNum n) = (0 <? n)%Z) ->
  net (dns_query domain "A") = Resolves (Json (VObj fields)) ->
  lookup (str "Answer") fields = VArr items ->
  hasARecords net gt0 domain log
  = (Normal (VBool (nonempty_list items)), log ++ [dns_query domain "A"]).
Proof.
  intros G N A. rewrite hasARecords_run, N.
  unfold a_records, get, property_name. rewrite A. cbn [truthy].
  rewrite G. destruct items; reflexivity.
Qed.

Lemma hasARecords_on_array_witness :
  hasARecords (fun _ => json_answer [a_record "192.0.2.10"])
    number_greater_than_zero (str "example.com") []
  = (Normal (VBool true), [dns_query (str "example.com") "A"]).
Proof.
  apply (hasARecords_on_array (fun _ => json_answer [a_record "192.0.2.10"])
           number_greater_than_zero (str "example.com")
           [ (str "Status", VNum 0);
             (str "Answer", VArr [a_record "192.0.2.10"]) ]
           [a_record "192.0.2.10"] []);
    reflexivity.
Defined.

(** X4. When the [Answer] of the response to the A query is missing or
    falsy, [hasARecords] returns that value itself ([undefined] for a
    missing key), not the boolean [false]. *)
Theorem hasARecords_returns_falsy_answer net gt0 domain fields log :
  net (dns_query domain "A") = Resolves (Json (VObj fields)) ->
  truthy (lookup (str "Answer") fields) = false ->
  hasARecords net gt0 domain log
  = (Normal (lookup (str "Answer") fields), log ++ [dns_query domain "A"]).
Proof.
  intros N T. rewrite hasARecords_run, N.
  unfold a_records, get, property_name. now rewrite T.
Qed.

Lemma hasARecords_returns_falsy_answer_witness :
  hasARecords (fun _ => Resolves (Json (VObj [ (str "Status", VNum 3) ])))
    number_greater_than_zero (str "example.com") []
  = (Normal VUndefined, [dns_query (str "example.com") "A"]).
Proof.
  apply (hasARecords_returns_falsy_answer
           (fun _ => Resolves (Json (VObj [ (str "Status", VNum 3) ])))
           number_greater_than_zero (str "example.com")
           [ (str "Status", VNum 3) ] []);
    reflexivity.
Defined.

(** ** What the verdicts mean *)

(** X5. [{invalid, bad_syntax}] is returned for the malformed addresses
    and for no other: an address with one ['@'], text on both sides of it
    and a dot inside its domain never gets that verdict, whatever the
    network does. *)
Theorem bad_syntax_only_when_malformed net gt0 email log :
  fst (verifyEmail net gt0 email log) = Normal {{ invalid, bad_syntax }}
  <-> well_formed email = false.
Proof.
  split.
  - destruct (well_formed email) eqn:W; [| reflexivity].
    rewrite verifyEmail_well_formed by exact W.
    destruct (isDisposable (domain_part email)); [discriminate |].
    destruct (isRoleBased (local_part email)); [discriminate |].
    rewrite dns_checks_run. cbv zeta.
    destruct (mx_records _); try discriminate.
    destruct (no_records _); [discriminate |].
    destruct (a_records _ _); try discriminate;
      destruct (existsb _ _); discriminate.
  - intros W. now rewrite verifyEmail_malformed.
Qed.

(** X6. What [{valid, dns_verified}] guarantees: the address is well
    formed, its domain is not on the disposable list, its local part is not
    a role name, the domain matches none of the suspicion patterns,
    [getMXRecords] returned something that passed the emptiness test, and
    exactly two requests were issued, the MX query and then the A query. *)
Theorem valid_verdict_sound net gt0 email log log' :
  verifyEmail net gt0 email log = (Normal {{ valid, dns_verified }}, log') ->
  well_formed email = true
  /\ has DISPOSABLE_DOMAINS (toLowerCase (domain_part email)) = false
  /\ has ROLE_BASED_PREFIXES (toLowerCase (local_part email)) = false
  /\ existsb (fun pattern => test pattern (domain_part email))
       suspiciousPatterns = false
  /\ (exists mxRecords,
         getMXRecords net (domain_part email) log
         = (Normal mxRecords, log ++ [dns_query (domain_part email) "MX"])
         /\ no_records mxRecords = false)
  /\ log' = log ++ [ dns_query (domain_part email) "MX";
                     dns_query (domain_part email) "A" ].
Proof.
  destruct (well_formed email) eqn:W.
  - rewrite verifyEmail_well_formed by exact W.
    rewrite has_DISPOSABLE_DOMAINS, has_ROLE_BASED_PREFIXES, getMXRecords_run.
    destruct (isDisposable (domain_part email)); [discriminate |].
    destruct (isRoleBased (local_part email)); [discriminate |].
    rewrite dns_checks_run. cbv zeta.
    destruct (mx_records _) as [mxRecords | |]; try discriminate.
    destruct (no_records mxRecords) eqn:N; [discriminate |].
    destruct (a_records _ _); try discriminate;
      destruct (existsb _ _); try discriminate;
      intros [= <-]; rewrite <- app_assoc; repeat split; eauto.
  - rewrite verifyEmail_malformed by exact W. discriminate.
Qed.

Lemma valid_verdict_sound_witness :
  well_formed (str "user@legitcompany.com") = true
  /\ has DISPOSABLE_DOMAINS
       (toLowerCase (domain_part (str "user@legitcompany.com"))) = false
  /\ has ROLE_BASED_PREFIXES
       (toLowerCase (local_part (str "user@legitcompany.com"))) = false
  /\ existsb
       (fun pattern => test pattern (domain_part (str "user@legitcompany.com")))
       suspiciousPatterns = false
  /\ (exists mxRecords,
         getMXRecords (fun _ => json_answer [mx_record "mail.legitcompany.com"])
           (domain_part (str "user@legitcompany.com")) []
         = (Normal mxRecords,
            [] ++ [dns_query (domain_part (str "user@legitcompany.com")) "MX"])
         /\ no_records mxRecords = false)
  /\ [ dns_query (str "legitcompany.com") "MX";
       dns_query (str "legitcompany.com") "A" ]
     = [] ++ [ dns_query (domain_part (str "user@legitcompany.com")) "MX";
               dns_query (domain_part (str "user@legitcompany.com")) "A" ].
Proof.
  apply (valid_verdict_sound
           (fun _ => json_answer [mx_record "mail.legitcompany.com"])
           number_greater_than_zero (str "user@legitcompany.com") []).
  reflexivity.
Defined.

(** ** The denylists, whatever the case *)

Lemma lower_unit_at c : Ascii.eqb (lower_unit c) "@" = Ascii.eqb c "@".
Proof. by_enumeration. Qed.

Lemma lower_unit_dot c : Ascii.eqb (lower_unit c) "." = Ascii.eqb c ".".
Proof. by_enumeration. Qed.

Lemma count_at_toLowerCase s : count_at (toLowerCase s) = count_at s.
Proof.
  induction s as [| c s IH]; simpl; [reflexivity |].
  now rewrite lower_unit_at, IH.
Qed.

Lemma dot_before_end_toLowerCase s :
  dot_before_end (toLowerCase s) = dot_before_end s.
Proof.
  induction s as [| c s IH]; simpl; [reflexivity |].
  rewrite lower_unit_dot, IH. now destruct s.
Qed.

Lemma dot_inside_toLowerCase d : dot_inside (toLowerCase d) = dot_inside d.
Proof. destruct d; simpl; [reflexivity | apply dot_before_end_toLowerCase]. Qed.

Lemma nonempty_toLowerCase s : nonempty (toLowerCase s) = nonempty s.
Proof. now destruct s. Qed.

(** An address put together from a local part and a domain. *)
Lemma well_formed_join local domain :
  nonempty local = true -> count_at local = 0 ->
  count_at domain = 0 -> dot_inside domain = true ->
  well_formed (local ++ "@"%char :: domain) = true.
Proof.
  intros Nl Cl Cd Dd. unfold well_formed.
  apply count_at_zero in Cl.
  rewrite local_part_app, domain_part_app, count_at_app by exact Cl.
  apply count_at_zero in Cl. simpl. rewrite Cl, Cd, Nl, Dd.
  destruct domain; [discriminate | reflexivity].
Qed.

Lemma has_true set s : has set s = true <-> In s set.
Proof.
  unfold has. rewrite existsb_exists. split.
  - intros (e & I & E). unfold jsstring_eqb in E.
    destruct (list_eq_dec ascii_dec s e); congruence.
  - intros I. exists s. split; [exact I |]. unfold jsstring_eqb.
    destruct (list_eq_dec ascii_dec s s); congruence.
Qed.

(** X7. An address whose domain is, in any mix of capitals and small
    letters, one of the disposable domains is rejected as
    [{invalid, disposable_domain}] whatever its local part, and without any
    request to the network. *)
Theorem disposable_in_any_case net gt0 local domain log :
  nonempty local = true -> count_at local = 0 ->
  has DISPOSABLE_DOMAINS (toLowerCase domain) = true ->
  verifyEmail net gt0 (local ++ "@"%char :: domain) log
  = (Normal {{ invalid, disposable_domain }}, log).
Proof.
  intros Nl Cl H.
  assert (E : forallb (fun e => (count_at e =? 0) && dot_inside e)
                DISPOSABLE_DOMAINS = true) by reflexivity.
  rewrite forallb_forall in E.
  specialize (E _ (proj1 (has_true _ _) H)).
  apply andb_true_iff in E as [C D]. apply Nat.eqb_eq in C.
  rewrite count_at_toLowerCase in C. rewrite dot_inside_toLowerCase in D.
  rewrite verifyEmail_well_formed by now apply well_formed_join.
  apply count_at_zero in Cl.
  rewrite domain_part_app, <- has_DISPOSABLE_DOMAINS, H by exact Cl.
  reflexivity.
Qed.

Lemma disposable_in_any_case_witness :
  verifyEmail (fun _ => NeverSettles) number_greater_than_zero
    (str "first.last" ++ "@"%char :: str "GuerrillaMail.Com") []
  = (Normal {{ invalid, disposable_domain }}, []).
Proof.
  apply (disposable_in_any_case (fun _ => NeverSettles)
           number_greater_than_zero (str "first.last")
           (str "GuerrillaMail.Com") []);
    reflexivity.
Defined.

(** X8. An address whose local part is, in any mix of capitals and small
    letters, one of the role names is rejected as [{invalid, role_based}]
    without any request to the network, provided its domain has a dot
    inside and is not a disposable one. *)
Theorem role_based_in_any_case net gt0 local domain log :
  has ROLE_BASED_PREFIXES (toLowerCase local) = true ->
  count_at domain = 0 -> dot_inside domain = true ->
  has DISPOSABLE_DOMAINS (toLowerCase domain) = false ->
  verifyEmail net gt0 (local ++ "@"%char :: domain) log
  = (Normal {{ invalid, role_based }}, log).
Proof.
  intros H Cd Dd ND.
  assert (E : forallb (fun e => (count_at e =? 0) && nonempty e)
                ROLE_BASED_PREFIXES = true) by reflexivity.
  rewrite forallb_forall in E.
  specialize (E _ (proj1 (has_true _ _) H)).
  apply andb_true_iff in E as [C N]. apply Nat.eqb_eq in C.
  rewrite count_at_toLowerCase in C. rewrite nonempty_toLowerCase in N.
  rewrite verifyEmail_well_formed by now apply well_formed_join.
  apply count_at_zero in C.
  rewrite domain_part_app, local_part_app, <- has_DISPOSABLE_DOMAINS,
    <- has_ROLE_BASED_PREFIXES, ND, H by exact C.
  reflexivity.
Qed.

Lemma role_based_in_any_case_witness :
  verifyEmail (fun _ => NeverSettles) number_greater_than_zero
    (str "No-Reply" ++ "@"%char :: str "example.com") []
  = (Normal {{ invalid, role_based }}, []).
Proof.
  apply (role_based_in_any_case (fun _ => NeverSettles)
           number_greater_than_zero (str "No-Reply") (str "example.com") []);
    reflexivity.
Defined.

(** ** The suspicion patterns, whatever the case and the surroundings *)

Lemma ascii_lower_unit_digit c : is_digit (ascii_lower_unit c) = is_digit c.
Proof. by_enumeration. Qed.

Lemma ascii_lower_unit_letter c :
  is_letter (ascii_lower_unit c) = is_letter c.
Proof. by_enumeration. Qed.

Lemma ascii_lower_unit_dot c :
  Ascii.eqb (ascii_lower_unit c) "." = Ascii.eqb c ".".
Proof. by_enumeration. Qed.

Lemma lower_unit_ascii_lower_unit c :
  lower_unit (ascii_lower_unit c) = lower_unit c.
Proof.
  apply Ascii.eqb_eq.
  change (Ascii.eqb (lower_unit (ascii_lower_unit c)) (lower_unit c) = true).
  by_enumeration.
Qed.

Lemma toLowerCase_ascii_lower_case s :
  toLowerCase (ascii_lower_case s) = toLowerCase s.
Proof.
  unfold toLowerCase, ascii_lower_case. rewrite map_map.
  apply map_ext, lower_unit_ascii_lower_unit.
Qed.

Lemma run_length_ascii_lower_case p s :
  (forall c, p (ascii_lower_unit c) = p c) ->
  run_length p (ascii_lower_case s) = run_length p s.
Proof.
  intros E. induction s as [| c s IH]; simpl; [reflexivity |].
  now rewrite E, IH.
Qed.

Lemma has_digit_run_ascii_lower_case n s :
  has_digit_run n (ascii_lower_case s) = has_digit_run n s.
Proof.
  induction s as [| c s IH]; [reflexivity |].
  change (ascii_lower_case (c :: s))
    with (ascii_lower_unit c :: ascii_lower_case s).
  cbn [has_digit_run]. rewrite IH. f_equal.
  change (ascii_lower_unit c :: ascii_lower_case s)
    with (ascii_lower_case (c :: s)).
  now rewrite run_length_ascii_lower_case by apply ascii_lower_unit_digit.
Qed.

Lemma first_label_ascii_lower_case d :
  first_label (ascii_lower_case d)
  = option_map ascii_lower_case (first_label d).
Proof.
  induction d as [| c d IH]; simpl; [reflexivity |].
  rewrite ascii_lower_unit_dot. destruct (Ascii.eqb c "."); [reflexivity |].
  fold (ascii_lower_case d). rewrite IH. now destruct (first_label d).
Qed.

Lemma forallb_ascii_lower_case p s :
  (forall c, p (ascii_lower_unit c) = p c) ->
  forallb p (ascii_lower_case s) = forallb p s.
Proof.
  intros E. induction s as [| c s IH]; simpl; [reflexivity |].
  now rewrite E, IH.
Qed.

Lemma letters_then_digits_ascii_lower_case l :
  letters_then_digits is_letter (ascii_lower_case l)
  = letters_then_digits is_letter l.
Proof.
  unfold letters_then_digits.
  rewrite run_length_ascii_lower_case by apply ascii_lower_unit_letter.
  unfold ascii_lower_case at 1 2. rewrite !skipn_map.
  fold (ascii_lower_case (skipn (run_length is_letter l) l)).
  rewrite forallb_ascii_lower_case by apply ascii_lower_unit_digit.
  now destruct (skipn (run_length is_letter l) l).
Qed.

(** X9. The suspicion flag does not depend on the case of the letters A to
    Z in the domain: [getDomainInfo] gives the same result for a domain
    and for the domain with its ASCII capitals turned into small letters,
    the other code units being left as they are. *)
Theorem getDomainInfo_ignores_ascii_case domain log :
  getDomainInfo (ascii_lower_case domain) log = getDomainInfo domain log.
Proof.
  unfold getDomainInfo, ret. rewrite !suspicious_patterns.
  unfold contains_keyword, short_first_label.
  rewrite has_digit_run_ascii_lower_case, toLowerCase_ascii_lower_case,
    first_label_ascii_lower_case.
  destruct (first_label domain) as [l |]; cbn [option_map]; [| reflexivity].
  now rewrite letters_then_digits_ascii_lower_case.
Qed.

Lemma matches_prefix_app ic r s post :
  matches_prefix ic r s = true -> matches_prefix ic r (s ++ post) = true.
Proof.
  rewrite !matches_prefix_lang. intros (m & rest & -> & H).
  exists m, (rest ++ post). now rewrite app_assoc.
Qed.

Lemma search_inside (f : jsstring -> bool) pre s post :
  (forall t, f t = true -> f (t ++ post) = true) ->
  search f s = true -> search f (pre ++ s ++ post) = true.
Proof.
  intros F. rewrite !search_spec. intros (p & t & -> & H).
  exists (pre ++ p), (t ++ post). split; [| now apply F].
  now rewrite <- !app_assoc.
Qed.

(** X10. The first two patterns look anywhere in the domain: a domain that
    contains a domain flagged for a run of digits or for a keyword is
    flagged too, whatever comes before and after. *)
Theorem suspicion_spreads_to_containing_domains pre domain post log :
  test long_number domain = true \/ test keywords domain = true ->
  getDomainInfo (pre ++ domain ++ post) log
  = (Normal {| suspicious := true |}, log).
Proof.
  intros H. unfold getDomainInfo, ret, suspiciousPatterns. cbn [existsb].
  do 3 f_equal.
  destruct H as [H | H].
  - assert (E : test long_number (pre ++ domain ++ post) = true).
    { apply search_inside; [| exact H].
      intros t. apply matches_prefix_app. }
    now rewrite E.
  - assert (E : test keywords (pre ++ domain ++ post) = true).
    { apply search_inside; [| exact H].
      intros t. apply matches_prefix_app. }
    rewrite E. apply orb_true_r.
Qed.

Lemma suspicion_spreads_to_containing_domains_witness :
  getDomainInfo (str "con" ++ str "test" ++ str ".org") []
  = (Normal {| suspicious := true |}, []).
Proof.
  apply (suspicion_spreads_to_containing_domains
           (str "con") (str "test") (str ".org") []).
  right. reflexivity.
Defined.

(** X11. A request tells the domain and the record type it was built for:
    the MX queries of two different domains differ, so do their A queries,
    and an MX query is never an A query. *)
Theorem dns_query_tells_domain_and_type d1 d2 :
  (url (dns_query d1 "MX") = url (dns_query d2 "MX") -> d1 = d2)
  /\ (url (dns_query d1 "A") = url (dns_query d2 "A") -> d1 = d2)
  /\ url (dns_query d1 "MX") <> url (dns_query d2 "A").
Proof.
  unfold dns_query. cbn [url]. repeat split.
  - intros E. apply app_inv_head in E. rewrite !app_assoc in E.
    apply app_inv_tail in E. now apply app_inv_tail in E.
  - intros E. apply app_inv_head in E. rewrite !app_assoc in E.
    apply app_inv_tail in E. now apply app_inv_tail in E.
  - intros E. apply app_inv_head in E. rewrite !app_assoc in E.
    apply (f_equal (@rev ascii)) in E. rewrite !rev_app_distr in E.
    discriminate.
Qed.

(** ** The request handler *)

Section HandlerFacts.

Variable net : request -> fetch_outcome.
Variable gt0 : value -> bool.
Variable ToString : value -> completion jsstring.
Variable engine_message : error -> jsstring.

Lemma verifyEmail_never_throws email log e :
  fst (verifyEmail net gt0 email log) <> Thrown e.
Proof.
  destruct (well_formed email) eqn:W.
  - rewrite verifyEmail_well_formed by exact W.
    destruct (isDisposable (domain_part email)); [discriminate |].
    destruct (isRoleBased (local_part email)); [discriminate |].
    rewrite dns_checks_run. cbv zeta.
    destruct (mx_records _); try discriminate.
    destruct (no_records _); [discriminate |].
    destruct (a_records _ _); discriminate.
  - rewrite verifyEmail_malformed by exact W. discriminate.
Qed.

(** A request is issued only for a well-formed address. *)
Lemma verifyEmail_log email log :
  snd (verifyEmail net gt0 email log) <> log -> well_formed email = true.
Proof.
  destruct (well_formed email) eqn:W; [reflexivity |].
  rewrite verifyEmail_malformed by exact W. intros H. now elim H.
Qed.

Lemma verifyEmail_any_run email log :
  verifyEmail_any net gt0 ToString email log =
  match email with
  | VStr s => verifyEmail net gt0 s log
  | _ =>
      match ToString email with
      | Normal s =>
          if test EMAIL_REGEX s then (Thrown TypeError, log)
          else (Normal {{ invalid, bad_syntax }}, log)
      | Thrown e => (Thrown e, log)
      | Unsettled => (Unsettled, log)
      end
  end.
Proof.
  destruct email; try reflexivity;
    unfold verifyEmail_any, bind, lift;
    (destruct (ToString _) as [s | |]; [| reflexivity | reflexivity]);
    destruct (test EMAIL_REGEX s); reflexivity.
Qed.

Lemma handleRequest_not_post request log :
  method request <> str "POST" ->
  handleRequest net gt0 ToString engine_message request log =
  (Normal (if jsstring_eqb (method request) (str "OPTIONS")
           then preflight_response else method_not_allowed), log).
Proof.
  intros M. unfold handleRequest.
  destruct (jsstring_eqb (method request) (str "OPTIONS")); [reflexivity |].
  unfold jsstring_eqb.
  destruct (list_eq_dec ascii_dec (method request) (str "POST"));
    [contradiction | reflexivity].
Qed.

Lemma handleRequest_post request log :
  method request = str "POST" ->
  handleRequest net gt0 ToString engine_message request log =
  match payload request with
  | NotJson => (Normal (internal_error (message engine_message SyntaxError)), log)
  | BodyStalls => (Unsettled, log)
  | Json data =>
      match get_email data with
      | Thrown e => (Normal (internal_error (message engine_message e)), log)
      | Unsettled => (Unsettled, log)
      | Normal email =>
          if truthy email
          then match verifyEmail_any net gt0 ToString email log with
               | (Normal result, log') => (Normal (verdict_response result), log')
               | (Thrown e, log') =>
                   (Normal (internal_error (message engine_message e)), log')
               | (Unsettled, log') => (Unsettled, log')
               end
          else (Normal email_required, log)
      end
  end.
Proof.
  intros M. unfold handleRequest. rewrite M.
  change (jsstring_eqb (str "POST") (str "OPTIONS")) with false.
  change (jsstring_eqb (str "POST") (str "POST")) with true.
  cbn [negb]. unfold try_catch, bind at 1.
  destruct (payload request) as [data | |]; try reflexivity.
  unfold json, ret, bind at 1, lift.
  destruct (get_email data) as [email | |]; try reflexivity.
  destruct (truthy email); [| reflexivity].
  cbn [negb]. unfold bind.
  destruct (verifyEmail_any net gt0 ToString email log) as [[result | e |] log'];
    reflexivity.
Qed.

End HandlerFacts.

Lemma verifyEmail_in_table net gt0 email log result :
  fst (verifyEmail net gt0 email log) = Normal result ->
  In result verdict_table.
Proof.
  destruct (well_formed email) eqn:W.
  - rewrite verifyEmail_well_formed by exact W.
    destruct (isDisposable (domain_part email));
      [intros [= <-]; simpl; tauto |].
    destruct (isRoleBased (local_part email));
      [intros [= <-]; simpl; tauto |].
    rewrite dns_checks_run. cbv zeta.
    destruct (mx_records _); try discriminate;
      [| intros [= <-]; simpl; tauto].
    destruct (no_records _); [intros [= <-]; simpl; tauto |].
    destruct (a_records _ _); try discriminate;
      destruct (existsb _ _); intros [= <-]; simpl; tauto.
  - rewrite verifyEmail_malformed by exact W. intros [= <-]. simpl. tauto.
Qed.

(** X12. [handleRequest] never throws; every response it gives carries the
    header [Access-Control-Allow-Origin: *] and one of the status codes
    200, 400, 405 and 500; and only a POST can be left without a
    response. *)
Theorem handleRequest_always_answers net gt0 ToString text request log :
  match fst (handleRequest net gt0 ToString text request log) with
  | Normal r =>
      In allow_origin (response_headers r) /\
      In (response_status r) [200; 400; 405; 500]%Z
  | Thrown _ => False
  | Unsettled => method request = str "POST"
  end.
Proof.
  destruct (list_eq_dec ascii_dec (method request) (str "POST")) as [M | M].
  - rewrite handleRequest_post by exact M.
    destruct (payload request) as [data | |];
      [| cbn; auto 10 | exact M].
    destruct (get_email data) as [email | |]; [| cbn; auto 10 | exact M].
    destruct (truthy email); [| cbn; auto 10].
    destruct (verifyEmail_any _ _ _ _ _) as [[result | e |] log'];
      [cbn; auto 10 | cbn; auto 10 | exact M].
  - rewrite handleRequest_not_post by exact M.
    destruct (jsstring_eqb _ _); cbn; auto 10.
Qed.

(** X13. A POST whose body is JSON with a non-empty string under [email]
    is answered by the verification of that string: status 200 with the
    verdict that [verifyEmail] returns, a row of the table, after the same
    requests; no answer while [verifyEmail] is pending; never a 400 or a
    500. *)
Theorem post_string_email net gt0 ToString text request data s log :
  method request = str "POST" ->
  payload request = Json data ->
  get_email data = Normal (VStr s) ->
  nonempty s = true ->
  (forall result log',
      verifyEmail net gt0 s log = (Normal result, log') ->
      handleRequest net gt0 ToString text request log
      = (Normal (verdict_response result), log'))
  /\ (forall log',
         verifyEmail net gt0 s log = (Unsettled, log') ->
         handleRequest net gt0 ToString text request log = (Unsettled, log'))
  /\ (forall r,
         fst (handleRequest net gt0 ToString text request log) = Normal r ->
         exists result,
           In result verdict_table /\ r = verdict_response result).
Proof.
  intros M P E N.
  rewrite handleRequest_post, P, E by exact M.
  assert (T : truthy (VStr s) = true) by (now destruct s).
  rewrite T, verifyEmail_any_run.
  pose proof (verifyEmail_never_throws net gt0 s log) as NT.
  pose proof (verifyEmail_in_table net gt0 s log) as IT.
  destruct (verifyEmail net gt0 s log) as [[result | e |] log'].
  - repeat split.
    + now intros ? ? [= <- <-].
    + discriminate.
    + intros r [= <-]. exists result. split; [now apply IT | reflexivity].
  - now elim (NT e).
  - repeat split.
    + discriminate.
    + now intros ? [= <-].
    + discriminate.
Qed.

Lemma post_string_email_witness :
  (forall result log',
      verifyEmail (fun _ => Rejects) number_greater_than_zero
        (str "user@legitcompany.com") [] = (Normal result, log') ->
      handleRequest (fun _ => Rejects) number_greater_than_zero
        sample_ToString sample_message
        (post (VObj [ (str "email", VStr (str "user@legitcompany.com")) ])) []
      = (Normal (verdict_response result), log'))
  /\ (forall log',
         verifyEmail (fun _ => Rejects) number_greater_than_zero
           (str "user@legitcompany.com") [] = (Unsettled, log') ->
         handleRequest (fun _ => Rejects) number_greater_than_zero
           sample_ToString sample_message
           (post (VObj [ (str "email", VStr (str "user@legitcompany.com")) ])) []
         = (Unsettled, log'))
  /\ (forall r,
         fst (handleRequest (fun _ => Rejects) number_greater_than_zero
                sample_ToString sample_message
                (post (VObj [ (str "email",
                               VStr (str "user@legitcompany.com")) ])) [])
         = Normal r ->
         exists result,
           In result verdict_table /\ r = verdict_response result).
Proof.
  apply (post_string_email (fun _ => Rejects) number_greater_than_zero
           sample_ToString sample_message
           (post (VObj [ (str "email", VStr (str "user@legitcompany.com")) ]))
           (VObj [ (str "email", VStr (str "user@legitcompany.com")) ])
           (str "user@legitcompany.com") []);
    reflexivity.
Defined.

(** X14. The network is called only on behalf of a POST whose [email] is a
    string that passes the syntax check: for any other request the log of
    requests is left as it was. *)
Theorem network_only_for_string_email net gt0 ToString text request log :
  snd (handleRequest net gt0 ToString text request log) <> log ->
  method request = str "POST"
  /\ exists data s,
       payload request = Json data /\ get_email data = Normal (VStr s)
       /\ well_formed s = true.
Proof.
  destruct (list_eq_dec ascii_dec (method request) (str "POST")) as [M | M].
  - rewrite handleRequest_post by exact M. intros H. split; [exact M |].
    destruct (payload request) as [data | |]; try now elim H.
    destruct (get_email data) as [email | |] eqn:G; try now elim H.
    destruct (truthy email); [| now elim H].
    rewrite verifyEmail_any_run in H.
    destruct email as [| | | | s | |];
      try (destruct (ToString _) as [t | |];
           [destruct (test EMAIL_REGEX t) | |]; now elim H).
    exists data, s. repeat split; [exact G |].
    apply (verifyEmail_log net gt0 s log). intros E. apply H.
    destruct (verifyEmail net gt0 s log) as [[result | e |] log'];
      cbn [snd] in *; congruence.
  - rewrite handleRequest_not_post by exact M. intros H. now elim H.
Qed.

Lemma network_only_for_string_email_witness :
  method (post (VObj [ (str "email", VStr (str "user@legitcompany.com")) ]))
  = str "POST"
  /\ exists data s,
       payload (post (VObj [ (str "email",
                              VStr (str "user@legitcompany.com")) ]))
       = Json data
       /\ get_email data = Normal (VStr s) /\ well_formed s = true.
Proof.
  apply (network_only_for_string_email (fun _ => Rejects)
           number_greater_than_zero sample_ToString sample_message
           (post (VObj [ (str "email", VStr (str "user@legitcompany.com")) ]))
           []).
  vm_compute. discriminate.
Defined.

Lemma verifyEmail_any_other net gt0 ToString email log :
  is_string email = false ->
  verifyEmail_any net gt0 ToString email log =
  match ToString email with
  | Normal s =>
      if test EMAIL_REGEX s then (Thrown TypeError, log)
      else (Normal {{ invalid, bad_syntax }}, log)
  | Thrown e => (Thrown e, log)
  | Unsettled => (Unsettled, log)
  end.
Proof.
  intros IS. rewrite verifyEmail_any_run. destruct email; try reflexivity.
  discriminate.
Qed.

(** X15. When a client gets the internal error (status 500): exactly for a
    POST whose body is not JSON, or is JSON [null], or carries under
    [email] a truthy value that is not a string and whose string form
    cannot be taken or passes the syntax check (an array holding one
    address, for one). A string never leads to it. *)
Theorem internal_error_cases net gt0 ToString text request log r :
  fst (handleRequest net gt0 ToString text request log) = Normal r ->
  (response_status r = 500%Z <->
   method request = str "POST" /\
   (payload request = NotJson
    \/ (exists data e,
           payload request = Json data /\ get_email data = Thrown e)
    \/ (exists data email,
           payload request = Json data /\ get_email data = Normal email /\
           truthy email = true /\ is_string email = false /\
           ((exists e, ToString email = Thrown e)
            \/ (exists s, ToString email = Normal s /\
                          test EMAIL_REGEX s = true))))).
Proof.
  destruct (list_eq_dec ascii_dec (method request) (str "POST")) as [M | M].
  - rewrite handleRequest_post by exact M.
    destruct (payload request) as [data | |]; [| | discriminate].
    + destruct (get_email data) as [email | e |] eqn:G; [| | discriminate].
      * destruct (truthy email) eqn:T.
        -- destruct (is_string email) eqn:IS.
           ++ destruct email as [| | | | s | |]; try discriminate.
              rewrite verifyEmail_any_run.
              pose proof (verifyEmail_never_throws net gt0 s log) as NT.
              destruct (verifyEmail net gt0 s log) as [[result | e |] log'];
                [| now elim (NT e) | discriminate].
              intros [= <-]. cbn [response_status verdict_response]. split.
              ** discriminate.
              ** intros (_ & [H | [(d & x & H1 & H2)
                                  | (d & x & H1 & H2 & _ & I & _)]]).
                 --- discriminate.
                 --- injection H1 as <-. congruence.
                 --- injection H1 as <-. rewrite G in H2.
                     injection H2 as <-. discriminate.
           ++ rewrite verifyEmail_any_other by exact IS.
              destruct (ToString email) as [t | e |] eqn:S; [| | discriminate].
              ** destruct (test EMAIL_REGEX t) eqn:R; intros [= <-];
                   cbn [response_status internal_error verdict_response];
                   split.
                 --- intros _. split; [exact M |]. right. right.
                     exists data, email. repeat split; auto.
                     right. exists t. auto.
                 --- reflexivity.
                 --- discriminate.
                 --- intros (_ & [H | [(d & x & H1 & H2)
                                      | (d & x & H1 & H2 & _ & _ & Q)]]).
                     +++ discriminate.
                     +++ injection H1 as <-. congruence.
                     +++ injection H1 as <-. rewrite G in H2.
                         injection H2 as <-.
                         destruct Q as [(x & Q) | (x & Q & Q')]; congruence.
              ** intros [= <-]. cbn [response_status internal_error]. split.
                 --- intros _. split; [exact M |]. right. right.
                     exists data, email. repeat split; auto.
                     left. exists e. exact S.
                 --- reflexivity.
        -- intros [= <-]. cbn [response_status email_required]. split.
           ++ discriminate.
           ++ intros (_ & [H | [(d & x & H1 & H2)
                               | (d & x & H1 & H2 & T' & _)]]).
              ** discriminate.
              ** injection H1 as <-. congruence.
              ** injection H1 as <-. rewrite G in H2.
                 injection H2 as <-. congruence.
      * intros [= <-]. cbn [response_status internal_error]. split.
        -- intros _. split; [exact M |]. right. left. eauto.
        -- reflexivity.
    + intros [= <-]. cbn [response_status internal_error]. split.
      * intros _. split; [exact M |]. now left.
      * reflexivity.
  - rewrite handleRequest_not_post by exact M. intros [= <-]. split.
    + destruct (jsstring_eqb _ _); discriminate.
    + intros [M' _]. contradiction.
Qed.

Lemma internal_error_cases_witness :
  response_status
    (internal_error (str "email.split is not a function")) = 500%Z <->
  method (post (VObj [ (str "email",
                        VArr [VStr (str "user@legitcompany.com")]) ]))
  = str "POST" /\
  (payload (post (VObj [ (str "email",
                          VArr [VStr (str "user@legitcompany.com")]) ]))
   = NotJson
   \/ (exists data e,
          payload (post (VObj [ (str "email",
                                 VArr [VStr (str "user@legitcompany.com")]) ]))
          = Json data /\ get_email data = Thrown e)
   \/ (exists data email,
          payload (post (VObj [ (str "email",
                                 VArr [VStr (str "user@legitcompany.com")]) ]))
          = Json data /\ get_email data = Normal email /\
          truthy email = true /\ is_string email = false /\
          ((exists e, sample_ToString email = Thrown e)
           \/ (exists s, sample_ToString email = Normal s /\
                         test EMAIL_REGEX s = true)))).
Proof.
  apply (internal_error_cases (fun _ => Rejects) number_greater_than_zero
           sample_ToString sample_message
           (post (VObj [ (str "email",
                          VArr [VStr (str "user@legitcompany.com")]) ]))
           []).
  reflexivity.
Defined.

(** X16. When a client is told that the email parameter is required
    (status 400): exactly for a POST whose body is JSON, not [null], with
    nothing under [email] or a falsy value there (a missing key, [null],
    [false], [0], the empty string). *)
Theorem email_required_cases net gt0 ToString text request log r :
  fst (handleRequest net gt0 ToString text request log) = Normal r ->
  (response_status r = 400%Z <->
   method request = str "POST" /\
   exists data email,
     payload request = Json data /\ get_email data = Normal email /\
     truthy email = false).
Proof.
  destruct (list_eq_dec ascii_dec (method request) (str "POST")) as [M | M].
  - rewrite handleRequest_post by exact M.
    destruct (payload request) as [data | |]; [| | discriminate].
    + destruct (get_email data) as [email | e |] eqn:G; [| | discriminate].
      * destruct (truthy email) eqn:T.
        -- destruct (verifyEmail_any _ _ _ _ _) as [[result | e |] log'];
             [| | discriminate]; intros [= <-];
             cbn [response_status verdict_response internal_error];
             (split; [discriminate |]);
             intros (_ & d & x & H1 & H2 & T'); injection H1 as <-;
             rewrite G in H2; injection H2 as <-; congruence.
        -- intros [= <-]. cbn [response_status email_required]. split.
           ++ intros _. split; [exact M |]. exists data, email. auto.
           ++ reflexivity.
      * intros [= <-]. cbn [response_status internal_error].
        split; [discriminate |].
        intros (_ & d & x & H1 & H2 & _). injection H1 as <-. congruence.
    + intros [= <-]. cbn [response_status internal_error].
      split; [discriminate |].
      intros (_ & d & x & H1 & _). discriminate.
  - rewrite handleRequest_not_post by exact M. intros [= <-]. split.
    + destruct (jsstring_eqb _ _); discriminate.
    + intros [M' _]. contradiction.
Qed.

Lemma email_required_cases_witness :
  response_status email_required = 400%Z <->
  method (post (VObj [ (str "email", VStr (str "")) ])) = str "POST" /\
  exists data email,
    payload (post (VObj [ (str "email", VStr (str "")) ])) = Json data /\
    get_email data = Normal email /\ truthy email = false.
Proof.
  apply (email_required_cases (fun _ => Rejects) number_greater_than_zero
           sample_ToString sample_message
           (post (VObj [ (str "email", VStr (str "")) ])) []).
  reflexivity.
Defined.

(** ** More on the verdicts and on the syntax check *)

(** X17. [{risky, dns_timeout}] is returned exactly when the address passed
    the three static checks and [getMXRecords] threw: neither the A lookup
    nor anything else leads to that verdict. *)
Theorem dns_timeout_only_for_mx_failure net gt0 email log :
  fst (verifyEmail net gt0 email log) = Normal {{ risky, dns_timeout }}
  <->
  well_formed email = true
  /\ has DISPOSABLE_DOMAINS (toLowerCase (domain_part email)) = false
  /\ has ROLE_BASED_PREFIXES (toLowerCase (local_part email)) = false
  /\ exists e, fst (getMXRecords net (domain_part email) log) = Thrown e.
Proof.
  rewrite has_DISPOSABLE_DOMAINS, has_ROLE_BASED_PREFIXES, getMXRecords_run.
  cbn [fst].
  destruct (well_formed email) eqn:W.
  - rewrite verifyEmail_well_formed by exact W.
    destruct (isDisposable (domain_part email)).
    { split; [discriminate | intros (_ & D & _); discriminate]. }
    destruct (isRoleBased (local_part email)).
    { split; [discriminate | intros (_ & _ & R & _); discriminate]. }
    rewrite dns_checks_run. cbv zeta.
    destruct (mx_records _) as [mxRecords | e |].
    + split.
      * destruct (no_records mxRecords); [discriminate |].
        destruct (a_records _ _); try discriminate;
          destruct (existsb _ _); discriminate.
      * intros (_ & _ & _ & e & H). discriminate.
    + split; [intros _; repeat split; eauto | reflexivity].
    + split; [discriminate | intros (_ & _ & _ & e & H); discriminate].
  - rewrite verifyEmail_malformed by exact W.
    split; [discriminate | intros [H _]; discriminate].
Qed.

Section ShapeOnly.

(** A change of code units that leaves every ['@'] and every ['.'] where it
    is and makes no new one. *)
Variable f : ascii -> ascii.
Hypothesis keeps_at : forall c, Ascii.eqb (f c) "@" = Ascii.eqb c "@".
Hypothesis keeps_dot : forall c, Ascii.eqb (f c) "." = Ascii.eqb c ".".

Lemma count_at_map s : count_at (map f s) = count_at s.
Proof.
  induction s as [| c s IH]; simpl; [reflexivity |].
  now rewrite keeps_at, IH.
Qed.

Lemma local_part_map s : local_part (map f s) = map f (local_part s).
Proof.
  induction s as [| c s IH]; simpl; [reflexivity |].
  rewrite keeps_at. destruct (Ascii.eqb c "@"); [reflexivity |].
  simpl. now rewrite IH.
Qed.

Lemma domain_part_map s : domain_part (map f s) = map f (domain_part s).
Proof.
  induction s as [| c s IH]; simpl; [reflexivity |].
  rewrite keeps_at. now destruct (Ascii.eqb c "@").
Qed.

Lemma dot_before_end_map s : dot_before_end (map f s) = dot_before_end s.
Proof.
  induction s as [| c s IH]; simpl; [reflexivity |].
  rewrite keeps_dot, IH. now destruct s.
Qed.

Lemma well_formed_map s : well_formed (map f s) = well_formed s.
Proof.
  unfold well_formed.
  rewrite count_at_map, local_part_map, domain_part_map.
  assert (N : forall t, nonempty (map f t) = nonempty t) by (now destruct t).
  assert (D : forall t, dot_inside (map f t) = dot_inside t).
  { intros [| c t]; simpl; [reflexivity | apply dot_before_end_map]. }
  now rewrite !N, D.
Qed.

End ShapeOnly.

(** X18. The syntax check looks at nothing but the places of ['@'] and
    ['.']: replacing the other code units by any others (blanks, line
    breaks, capitals) changes neither what [EMAIL_REGEX] accepts nor
    whether [verifyEmail] answers [{invalid, bad_syntax}]. *)
Theorem syntax_check_sees_only_at_and_dot net gt0 f email log :
  (forall c, Ascii.eqb (f c) "@" = Ascii.eqb c "@") ->
  (forall c, Ascii.eqb (f c) "." = Ascii.eqb c ".") ->
  test EMAIL_REGEX (map f email) = test EMAIL_REGEX email
  /\ (fst (verifyEmail net gt0 (map f email) log)
      = Normal {{ invalid, bad_syntax }}
      <-> fst (verifyEmail net gt0 email log)
          = Normal {{ invalid, bad_syntax }}).
Proof.
  intros A D.
  assert (W : well_formed (map f email) = well_formed email)
    by now apply well_formed_map.
  split.
  - now rewrite !test_EMAIL_REGEX.
  - assert (B : forall s,
               fst (verifyEmail net gt0 s log) = Normal {{ invalid, bad_syntax }}
               <-> well_formed s = false).
    { intros s. split.
      - destruct (well_formed s) eqn:Ws; [| reflexivity].
        rewrite verifyEmail_well_formed by exact Ws.
        destruct (isDisposable (domain_part s)); [discriminate |].
        destruct (isRoleBased (local_part s)); [discriminate |].
        rewrite dns_checks_run. cbv zeta.
        destruct (mx_records _); try discriminate.
        destruct (no_records _); [discriminate |].
        destruct (a_records _ _); try discriminate;
          destruct (existsb _ _); discriminate.
      - intros Ws. now rewrite verifyEmail_malformed. }
    now rewrite !B, W.
Qed.

Lemma syntax_check_sees_only_at_and_dot_witness :
  test EMAIL_REGEX (map lower_unit (str "First Last@Example.COM"))
  = test EMAIL_REGEX (str "First Last@Example.COM")
  /\ (fst (verifyEmail (fun _ => Rejects) number_greater_than_zero
             (map lower_unit (str "First Last@Example.COM")) [])
      = Normal {{ invalid, bad_syntax }}
      <-> fst (verifyEmail (fun _ => Rejects) number_greater_than_zero
                 (str "First Last@Example.COM") [])
          = Normal {{ invalid, bad_syntax }}).
Proof.
  apply (syntax_check_sees_only_at_and_dot (fun _ => Rejects)
           number_greater_than_zero lower_unit
           (str "First Last@Example.COM") []).
  - exact lower_unit_at.
  - exact lower_unit_dot.
Defined.
